(** * Finance ledger service: ledger, approval and reporting core

    A shallow embedding of the JavaScript sources

      - [src/models/Account.js]      (chart of accounts, [updateBalance])
      - [src/models/Transaction.js]  ([approve], [reject])
      - [src/utils/doubleEntry.js]   ([reconcileAccounts])
      - [src/utils/ledger.js]        ([aggregateByPeriod])
      - [src/handles/permissions.js] ([isManager])
      - [src/constants/roles.js]     ([isRoleHigher])

    and, further down, of the access-control wrappers, the bearer-token
    middleware, the double-entry writers and the running balance.

    Modelling conventions.

      - A JavaScript [Number] holding money, a counter or a time value is an
        integer of [Z]: the development covers integral amounts (minor
        currency units) in the range where [Number] arithmetic is exact,
        that is, as long as no sum leaves the interval from [-2^53] to
        [2^53].  Statements that regroup sums say so by a bound on the
        amounts; the module [Binary64] reads [aggregateByPeriod] over
        binary64 numbers, where amounts with a fraction are rounded at
        every addition.
      - JavaScript strings are [string]; [===] on strings is [String.eqb].
      - A Mongoose document is a record; a collection is part of an explicit
        database state [Db] that is threaded through every method that calls
        [save()].
      - [save()] of a transaction that the code constructs runs the
        validators of the schema ([Transaction_valid]) and then the driver,
        whose verdict is a parameter ([refuses]).  The methods [approve],
        [reject] and [updateBalance] are read on documents that pass the
        validators of their schema, with a driver that accepts the write.
      - A function that may [throw] returns a [result], or an [outcome]
        where something other than a class of [src/handles/errors.js] can
        be thrown.
      - [Date.now()] is a reading [now] handed to the method. *)

From Stdlib Require Import ZArith String Ascii List Lia Bool Permutation.
From Stdlib Require Import DecimalString PrimFloat.
From stdpp Require Import base option gmap strings list.

Import ListNotations.
Local Open Scope string_scope.
Local Open Scope Z_scope.

(** ** Errors ([src/handles/errors.js]) *)

Inductive error : Type :=
  | ValidationError
  | AuthenticationError
  | AuthorizationError
  | NotFoundError
  | ConflictError
  | DatabaseError.

Inductive result (A : Type) : Type :=
  | Ok (a : A)
  | Throw (e : error).

Arguments Ok {A} a.
Arguments Throw {A} e.

(** Outcomes of calls that may throw something other than one of these
    classes: a plain [Error], a [TypeError] of the engine, or the
    [ValidationError] of Mongoose, which is not the class of that name in
    [src/handles/errors.js]. *)
Inductive exn : Type :=
  | CustomError (class : error) (message : string)
  | PlainError (message : string)
  | TypeError
  | MongooseValidationError.

Inductive outcome (A : Type) : Type :=
  | Return (a : A)
  | Raise (x : exn).

Arguments Return {A} a.
Arguments Raise {A} x.

(** [Array.prototype.includes] on an array of strings. *)
Fixpoint includes (l : list string) (x : string) : bool :=
  match l with
  | [] => false
  | y :: l' => String.eqb y x || includes l' x
  end.

(** [String.prototype.trim], over the white space and the line
    terminators of the ASCII range (TAB, LF, VT, FF, CR and SPACE). *)
Definition isWhiteSpace (c : ascii) : bool :=
  let n := nat_of_ascii c in
  (Nat.leb 9 n && Nat.leb n 13) || Nat.eqb n 32.

Fixpoint trimStart (s : string) : string :=
  match s with
  | EmptyString => EmptyString
  | String c s' => if isWhiteSpace c then trimStart s' else s
  end.

Fixpoint trimEnd (s : string) : string :=
  match s with
  | EmptyString => EmptyString
  | String c s' =>
      match trimEnd s' with
      | EmptyString =>
          if isWhiteSpace c then EmptyString else String c EmptyString
      | t => String c t
      end
  end.

Definition trim (s : string) : string := trimEnd (trimStart s).

(** ** Documents *)

Module Account.

Record t : Type := mk {
  _id : string;
  accountCode : string;
  accountName : string;
  accountType : string;
  parentAccount : option string;
  balance : Z;
  updatedAt : Z
}.

Definition set_balance (b : Z) (a : t) : t :=
  mk (_id a) (accountCode a) (accountName a) (accountType a)
     (parentAccount a) b (updatedAt a).

Definition set_updatedAt (u : Z) (a : t) : t :=
  mk (_id a) (accountCode a) (accountName a) (accountType a)
     (parentAccount a) (balance a) u.

End Account.

Module Transaction.

(** [debitAccount] / [creditAccount]: [{ accountType, accountId }]. *)
Record side : Type := mkSide {
  accountType : string;
  accountId : string
}.

(** [reference]: [{ refType, refId }]. *)
Record ref : Type := mkRef {
  refType : string;
  refId : string
}.

Record t : Type := mk {
  _id : string;
  transactionId : string;
  amount : Z;
  type : string;
  debitAccount : side;
  creditAccount : side;
  reference : option ref;
  description : string;
  status : string;
  approvedBy : option string;
  linkedTransaction : option string;
  (** [Mixed]; [None] is [undefined].  Only string values are stored by
      the code under study. *)
  metadata : option (gmap string string);
  createdAt : Z;
  updatedAt : Z
}.

Definition set_status (s : string) (x : t) : t :=
  mk (_id x) (transactionId x) (amount x) (type x) (debitAccount x)
     (creditAccount x) (reference x) (description x) s (approvedBy x)
     (linkedTransaction x) (metadata x) (createdAt x) (updatedAt x).

Definition set_approvedBy (a : option string) (x : t) : t :=
  mk (_id x) (transactionId x) (amount x) (type x) (debitAccount x)
     (creditAccount x) (reference x) (description x) (status x) a
     (linkedTransaction x) (metadata x) (createdAt x) (updatedAt x).

Definition set_metadata (m : option (gmap string string)) (x : t) : t :=
  mk (_id x) (transactionId x) (amount x) (type x) (debitAccount x)
     (creditAccount x) (reference x) (description x) (status x)
     (approvedBy x) (linkedTransaction x) m (createdAt x) (updatedAt x).

Definition set_updatedAt (u : Z) (x : t) : t :=
  mk (_id x) (transactionId x) (amount x) (type x) (debitAccount x)
     (creditAccount x) (reference x) (description x) (status x)
     (approvedBy x) (linkedTransaction x) (metadata x) (createdAt x) u.

End Transaction.

(** ** The database

    [accounts] is read by [findById] only, so it is a finite map keyed by
    [_id].  [transactions] is queried with filters whose answers are arrays,
    so it is kept as the list of stored documents in insertion order. *)

Record Db : Type := mkDb {
  accounts : gmap string Account.t;
  transactions : list Transaction.t
}.

(** [Account.findById]. *)
Definition Account_findById (db : Db) (id : string) : option Account.t :=
  accounts db !! id.

(** [account.save()]: the document replaces the stored one with its
    [_id]; a new document is inserted. *)
Definition Account_save (a : Account.t) (db : Db) : Db :=
  mkDb (<[Account._id a := a]> (accounts db)) (transactions db).

Fixpoint upsert (x : Transaction.t) (l : list Transaction.t)
  : list Transaction.t :=
  match l with
  | [] => [x]
  | y :: l' =>
      if String.eqb (Transaction._id y) (Transaction._id x)
      then x :: l'
      else y :: upsert x l'
  end.

(** The write of [transaction.save()]: the document replaces the stored
    one with its [_id]; a new document is appended. *)
Definition Transaction_save (x : Transaction.t) (db : Db) : Db :=
  mkDb (accounts db) (upsert x (transactions db)).

(** [Transaction.findById]. *)
Definition Transaction_findById (db : Db) (id : string)
  : option Transaction.t :=
  find (fun y => String.eqb (Transaction._id y) id) (transactions db).

(** ** [accountSchema.methods.updateBalance] ([src/models/Account.js])

    [this] is the in-memory document; the result carries the mutated
    document and the database after [this.save()].  The [pre("save")] hook
    writes [updatedAt] a second time with the same clock reading. *)

Definition updateBalance (now : Z) (this : Account.t) (amount : Z)
    (operation : string) (db : Db) : result (Account.t * Db) :=
  let this1 :=
    if String.eqb operation "debit" then
      if includes ["asset"; "expense"] (Account.accountType this)
      then Account.set_balance (Account.balance this + amount) this
      else Account.set_balance (Account.balance this - amount) this
    else if String.eqb operation "credit" then
      if includes ["asset"; "expense"] (Account.accountType this)
      then Account.set_balance (Account.balance this - amount) this
      else Account.set_balance (Account.balance this + amount) this
    else this in
  let this2 := Account.set_updatedAt now this1 in
  let this3 := Account.set_updatedAt now this2 in
  Ok (this3, Account_save this3 db).

(** [accountSchema.methods.getBalance]. *)
Definition getBalance (this : Account.t) : Z := Account.balance this.

(** ** [transactionSchema.methods.approve] and [reject]
    ([src/models/Transaction.js])

    [this] is a document of the collection: it passes the validators of
    the schema, and so does what the two methods write to it. *)

Definition approve (now : Z) (this : Transaction.t) (approverId : string)
    (db : Db) : result (Transaction.t * Db) :=
  let this1 := Transaction.set_status "approved" this in
  let this2 := Transaction.set_approvedBy (Some approverId) this1 in
  let this3 := Transaction.set_updatedAt now this2 in
  let this4 := Transaction.set_updatedAt now this3 in
  Ok (this4, Transaction_save this4 db).

(** The object spread [{ ...this.metadata, rejectionReason: reason }]:
    spreading [undefined] contributes no property. *)
Definition spread_rejectionReason (m : option (gmap string string))
    (reason : string) : gmap string string :=
  <["rejectionReason" := reason]> (default ∅ m).

Definition reject (now : Z) (this : Transaction.t) (approverId : string)
    (reason : string) (db : Db) : result (Transaction.t * Db) :=
  let this1 := Transaction.set_status "rejected" this in
  let this2 := Transaction.set_approvedBy (Some approverId) this1 in
  let this3 :=
    Transaction.set_metadata
      (Some (spread_rejectionReason (Transaction.metadata this2) reason))
      this2 in
  let this4 := Transaction.set_updatedAt now this3 in
  let this5 := Transaction.set_updatedAt now this4 in
  Ok (this5, Transaction_save this5 db).

(** [new Transaction({...})]: the schema supplies [status = "pending"] and
    the two timestamps when the caller gives none, and the setter of
    [description] trims it. *)
Definition Transaction_new (_id transactionId : string) (amount : Z)
    (type : string) (debitAccount creditAccount : Transaction.side)
    (reference : option Transaction.ref) (description : string)
    (status : option string) (linkedTransaction : option string)
    (now : Z) : Transaction.t :=
  Transaction.mk _id transactionId amount type debitAccount creditAccount
    reference (trim description) (default "pending" status) None
    linkedTransaction None now now.

(** ** The validators of the two schemas

    [required: true] on a string path refuses a missing and an empty
    value; ids are abstract strings, so a missing id is the empty one. *)
Definition required (s : string) : bool := negb (String.eqb s "").

(** [transactionSchema]: [reference.refType] and [reference.refId] are
    required, so a document without [reference] is refused;
    [transactionId], [type], both sides of the entry are required;
    [amount] has [min: 0]; [type], [reference.refType] and [status] have an
    [enum].  [description], [metadata] and the dates carry no validator. *)
Definition Transaction_valid (x : Transaction.t) : bool :=
  match Transaction.reference x with
  | None => false
  | Some r =>
      includes ["employee"; "branch"; "vendor"] (Transaction.refType r)
      && required (Transaction.refId r)
  end
  && required (Transaction.transactionId x)
  && (0 <=? Transaction.amount x)
  && includes ["credit"; "debit"; "refund"; "purchase"; "transfer"]
       (Transaction.type x)
  && required (Transaction.accountType (Transaction.debitAccount x))
  && required (Transaction.accountId (Transaction.debitAccount x))
  && required (Transaction.accountType (Transaction.creditAccount x))
  && required (Transaction.accountId (Transaction.creditAccount x))
  && includes ["pending"; "approved"; "rejected"] (Transaction.status x).

(** [accountSchema]: [accountCode], [accountName] and [accountType] are
    required, [accountType] has an [enum]. *)
Definition Account_valid (a : Account.t) : bool :=
  required (Account.accountCode a)
  && required (Account.accountName a)
  && includes ["asset"; "liability"; "equity"; "revenue"; "expense"]
       (Account.accountType a).

(** The unique index on [accountCode]: no stored account carries the
    code of [a]. *)
Definition accountCode_unused (a : Account.t) (db : Db) : bool :=
  forallb
    (fun b => negb (String.eqb (Account.accountCode b)
                               (Account.accountCode a)))
    (snd <$> map_to_list (accounts db)).

(** ** Writes that can fail

    [save()] of a transaction runs the validators of the schema, then the
    [pre("save")] hook, then hands the document to the driver, which can
    refuse it (a duplicate [transactionId], a lost connection).
    [refuses doc] is the error the driver throws for [doc], if any. *)

Section Saves.

Variable refuses : Transaction.t -> option exn.

(** [doc.save()]. *)
Definition Transaction_try_save (now : Z) (doc : Transaction.t) (db : Db)
  : outcome (Transaction.t * Db) :=
  if Transaction_valid doc then
    let doc' := Transaction.set_updatedAt now doc in
    match refuses doc' with
    | Some x => Raise x
    | None => Return (doc', Transaction_save doc' db)
    end
  else Raise MongooseValidationError.

(** [new Transaction({...})] followed by [save()]. *)
Definition Transaction_create (_id transactionId : string) (amount : Z)
    (type : string) (debitAccount creditAccount : Transaction.side)
    (reference : option Transaction.ref) (description : string)
    (status : option string) (linkedTransaction : option string)
    (now : Z) (db : Db) : outcome (Transaction.t * Db) :=
  Transaction_try_save now
    (Transaction_new _id transactionId amount type debitAccount
       creditAccount reference description status linkedTransaction now)
    db.

End Saves.

(** ** [reconcileAccounts] ([src/utils/doubleEntry.js]) *)

Module Reconcile.

Record entry : Type := mkEntry {
  accountId : string;
  accountCode : string;
  recordedBalance : Z;
  calculatedBalance : Z;
  difference : Z;
  reconciled : bool
}.

Record report : Type := mkReport {
  accounts : list entry;
  allReconciled : bool
}.

End Reconcile.

(** The query [Transaction.find({ $or: [debit side is accountId,
    credit side is accountId] })]. *)
Definition Transaction_find_touching (db : Db) (accountId : string)
  : list Transaction.t :=
  List.filter
    (fun tx =>
       String.eqb (Transaction.accountId (Transaction.debitAccount tx))
                  accountId
       || String.eqb (Transaction.accountId (Transaction.creditAccount tx))
                     accountId)
    (transactions db).

(** Body of the inner [for (const tx of transactions)] loop. *)
Definition reconcile_tx (accountId : string) (calculatedBalance : Z)
    (tx : Transaction.t) : Z :=
  let c1 :=
    if String.eqb (Transaction.accountId (Transaction.debitAccount tx))
                  accountId
    then calculatedBalance + Transaction.amount tx
    else calculatedBalance in
  if String.eqb (Transaction.accountId (Transaction.creditAccount tx))
                accountId
  then c1 - Transaction.amount tx
  else c1.

(** Body of the outer [for (const accountId of accountIds)] loop; an
    unknown id is skipped by [continue]. *)
Definition reconcile_account (db : Db) (results : list Reconcile.entry)
    (accountId : string) : list Reconcile.entry :=
  match Account_findById db accountId with
  | None => results
  | Some account =>
      let txs := Transaction_find_touching db accountId in
      let calculatedBalance := fold_left (reconcile_tx accountId) txs 0 in
      let difference := Account.balance account - calculatedBalance in
      results ++
        [Reconcile.mkEntry accountId (Account.accountCode account)
           (Account.balance account) calculatedBalance difference
           (Z.eqb difference 0)]
  end.

Definition reconcileAccounts (db : Db) (accountIds : list string)
  : result Reconcile.report :=
  let results := fold_left (reconcile_account db) accountIds [] in
  Ok (Reconcile.mkReport results (forallb Reconcile.reconciled results)).

(** ** [isManager] ([src/handles/permissions.js]) *)

(** A Mongoose [ObjectId]: an object (hence truthy) whose [toString()] is
    its hexadecimal rendering. *)
Record ObjectId : Type := mkObjectId { toString : string }.

Module User.

(** The principal found in the request context; a missing property is
    [None]. *)
Record t : Type := mk {
  userId : option string;
  employeeId : option string;
  designation : option string
}.

End User.

Module Employee.

Record t : Type := mk {
  userId : string;
  name : string;
  designation : string;
  manager : option ObjectId
}.

End Employee.

(** [x === s] for a possibly missing property [x] and a string [s]. *)
Definition strict_eq_str (x : option string) (s : string) : bool :=
  match x with
  | Some v => String.eqb v s
  | None => false
  end.

Definition isManager (user : option User.t) (employee : option Employee.t)
  : bool :=
  match user, employee with
  | Some u, Some e =>
      if strict_eq_str (User.designation u) "Admin" then true
      else
        match Employee.manager e with
        | Some m =>
            if strict_eq_str (User.employeeId u) (toString m) then true
            else false
        | None => false
        end
  | _, _ => false
  end.

(** ** Roles ([src/constants/roles.js]) *)

Module ROLES.
Definition ADMIN : string := "Admin".
Definition BRANCH_MANAGER : string := "BranchManager".
Definition EMPLOYEE : string := "Employee".
Definition VENDOR : string := "Vendor".
End ROLES.

Definition ROLE_HIERARCHY : list string :=
  [ROLES.VENDOR; ROLES.EMPLOYEE; ROLES.BRANCH_MANAGER; ROLES.ADMIN].

(** [Array.prototype.indexOf], searching from position [i]. *)
Fixpoint indexOf_from (l : list string) (x : string) (i : Z) : Z :=
  match l with
  | [] => -1
  | y :: l' => if String.eqb y x then i else indexOf_from l' x (i + 1)
  end.

Definition indexOf (l : list string) (x : string) : Z := indexOf_from l x 0.

Definition isRoleHigher (role1 role2 : string) : bool :=
  let index1 := indexOf ROLE_HIERARCHY role1 in
  let index2 := indexOf ROLE_HIERARCHY role2 in
  if Z.eqb index1 (-1) || Z.eqb index2 (-1) then false
  else Z.gtb index1 index2.

(** ** JavaScript [Date] values

    A [Date] is its time value: milliseconds since the epoch, UTC.  The
    local-time accessors depend on the host time zone, taken as a fixed
    offset [tz] in milliseconds ([local = UTC + tz]; zero on a host that
    runs in UTC).  Time values are taken inside the representable range. *)

Module JSDate.

Definition msPerDay : Z := 86400000.

(** ECMAScript [Day(t)] and [TimeWithinDay(t)]. *)
Definition Day (t : Z) : Z := t / msPerDay.
Definition TimeWithinDay (t : Z) : Z := t mod msPerDay.

(** ECMAScript [WeekDay(t)]: 0 is Sunday; the epoch fell on a Thursday. *)
Definition WeekDay (t : Z) : Z := (Day t + 4) mod 7.

(** Proleptic Gregorian calendar date (year, month 1..12, day 1..31) of a
    day number counted from the epoch. *)
Definition civil_from_days (z0 : Z) : Z * Z * Z :=
  let z := z0 + 719468 in
  let era := z / 146097 in
  let doe := z - era * 146097 in
  let yoe := (doe - doe / 1460 + doe / 36524 - doe / 146096) / 365 in
  let doy := doe - (365 * yoe + yoe / 4 - yoe / 100) in
  let mp := (5 * doy + 2) / 153 in
  let d := doy - (153 * mp + 2) / 5 + 1 in
  let m := if mp <? 10 then mp + 3 else mp - 9 in
  let y := yoe + era * 400 in
  (if m <=? 2 then y + 1 else y, m, d).

(** Day number of a calendar date; ECMAScript [MakeDay]. *)
Definition days_from_civil (y0 m d : Z) : Z :=
  let y := if m <=? 2 then y0 - 1 else y0 in
  let era := y / 400 in
  let yoe := y - era * 400 in
  let doy := (153 * (if m >? 2 then m - 3 else m + 9) + 2) / 5 + d - 1 in
  let doe := yoe * 365 + yoe / 4 - yoe / 100 + doy in
  era * 146097 + doe - 719468.

Definition YearFromTime (t : Z) : Z := fst (fst (civil_from_days (Day t))).
Definition MonthFromTime (t : Z) : Z :=
  snd (fst (civil_from_days (Day t))) - 1.
Definition DateFromTime (t : Z) : Z := snd (civil_from_days (Day t)).

(** [String(n)] for an integer [n]. *)
Definition decimal (n : Z) : string := NilZero.string_of_int (Z.to_int n).

Fixpoint zeros (n : nat) : string :=
  match n with
  | O => ""
  | S n' => "0" ++ zeros n'
  end.

(** [s.padStart(n, "0")]. *)
Definition padStart (n : nat) (s : string) : string :=
  zeros (n - String.length s) ++ s.

(** Year field of [toISOString]: four digits, or a sign and six digits
    outside 0..9999. *)
Definition isoYear (y : Z) : string :=
  if (0 <=? y) && (y <=? 9999) then padStart 4 (decimal y)
  else (if y <? 0 then "-" else "+") ++ padStart 6 (decimal (Z.abs y)).

(** [Date.prototype.toISOString]. *)
Definition toISOString (t : Z) : string :=
  let ms := TimeWithinDay t in
  isoYear (YearFromTime t) ++ "-" ++
  padStart 2 (decimal (MonthFromTime t + 1)) ++ "-" ++
  padStart 2 (decimal (DateFromTime t)) ++ "T" ++
  padStart 2 (decimal (ms / 3600000)) ++ ":" ++
  padStart 2 (decimal (ms / 60000 mod 60)) ++ ":" ++
  padStart 2 (decimal (ms / 1000 mod 60)) ++ "." ++
  padStart 3 (decimal (ms mod 1000)) ++ "Z".

(** [s.split("T")[0]]: the part of [s] before its first [T]. *)
Fixpoint splitT0 (s : string) : string :=
  match s with
  | EmptyString => EmptyString
  | String c s' =>
      if Ascii.eqb c "T"%char then EmptyString else String c (splitT0 s')
  end.

Section Local.

Variable tz : Z.

Definition getFullYear (t : Z) : Z := YearFromTime (t + tz).
Definition getMonth (t : Z) : Z := MonthFromTime (t + tz).
Definition getDate (t : Z) : Z := DateFromTime (t + tz).
Definition getDay (t : Z) : Z := WeekDay (t + tz).

(** [d.setDate(n)]: the day of the month is replaced, the local time of
    day is kept; [n] outside the month rolls over into its neighbours. *)
Definition setDate (t n : Z) : Z :=
  let l := t + tz in
  let day :=
    days_from_civil (YearFromTime l) (MonthFromTime l + 1) 1 + n - 1 in
  day * msPerDay + TimeWithinDay l - tz.

End Local.

(** Decimal value of a string of digits. *)
Definition digits (s : string) : option Z :=
  if Nat.eqb (String.length s) 0 then None
  else Z.of_uint <$> NilZero.uint_of_string s.

(** A year, month and day that name a day of the calendar. *)
Definition valid_date (y m d : Z) : bool :=
  let '(y', m', d') := civil_from_days (days_from_civil y m d) in
  (1 <=? m) && (m <=? 12) && (1 <=? d)
  && (y' =? y) && (m' =? m) && (d' =? d).

(** Month and optional day after the year of an ISO date-only string
    ([-MM] or [-MM-DD]). *)
Definition parse_month_day (y : Z) (rest : string) : option Z :=
  match String.length rest with
  | 3%nat =>
      if String.eqb (substring 0 1 rest) "-" then
        m ← digits (substring 1 2 rest);
        if valid_date y m 1
        then Some (days_from_civil y m 1 * msPerDay) else None
      else None
  | 6%nat =>
      if String.eqb (substring 0 1 rest) "-"
         && String.eqb (substring 3 1 rest) "-" then
        m ← digits (substring 1 2 rest);
        d ← digits (substring 4 2 rest);
        if valid_date y m d
        then Some (days_from_civil y m d * msPerDay) else None
      else None
  | _ => None
  end.

(** Time value of a string in one of the date-only forms of the ECMAScript
    date-time string format ([YYYY-MM], [YYYY-MM-DD], and the same after an
    expanded year [+YYYYYY] or [-YYYYYY]), which denote UTC midnight;
    [None] for any other string. *)
Definition parse_date_only (s : string) : option Z :=
  match s with
  | String "+" s' =>
      y ← digits (substring 0 6 s');
      parse_month_day y (substring 6 (String.length s' - 6) s')
  | String "-" s' =>
      y ← digits (substring 0 6 s');
      if y =? 0 then None
      else parse_month_day (- y) (substring 6 (String.length s' - 6) s')
  | _ =>
      y ← digits (substring 0 4 s);
      parse_month_day y (substring 4 (String.length s - 4) s)
  end.

(** Time value of [new Date(s)]; [None] is an invalid date.  The standard
    fixes the result for strings of its own format; for every other string
    ("999-05", "10000-01": the month keys of years outside 1000..9999) it
    leaves the result to the heuristics of the engine, which [legacy]
    stands for. *)
Definition parse (legacy : string -> option Z) (s : string) : option Z :=
  match parse_date_only s with
  | Some t => Some t
  | None => legacy s
  end.

End JSDate.

(** ** [aggregateByPeriod] ([src/utils/ledger.js]) *)

Module Bucket.

Record t : Type := mk {
  date : string;
  totalAmount : Z;
  count : Z;
  transactions : list Transaction.t
}.

End Bucket.

(** The object [aggregated], used as a map from key to bucket; its own
    properties are kept in insertion order, the order [Object.values]
    follows for keys that are not array indices. *)
Definition JSObject : Type := list (string * Bucket.t).

(** [aggregated[key]]; [None] is [undefined]. *)
Fixpoint obj_get (o : JSObject) (key : string) : option Bucket.t :=
  match o with
  | [] => None
  | (k, v) :: o' => if String.eqb k key then Some v else obj_get o' key
  end.

(** [aggregated[key] = v]: an existing property keeps its position. *)
Fixpoint obj_set (o : JSObject) (key : string) (v : Bucket.t) : JSObject :=
  match o with
  | [] => [(key, v)]
  | (k, w) :: o' =>
      if String.eqb k key then (k, v) :: o' else (k, w) :: obj_set o' key v
  end.

Definition Object_values (o : JSObject) : list Bucket.t := map snd o.

Section Aggregate.

(** [tz] is the offset of the host's time zone, [legacy] the engine's
    reading of date strings outside the standard format. *)
Variable tz : Z.
Variable legacy : string -> option Z.

(** The [switch (period)] that computes [key]. *)
Definition period_key (period : string) (date : Z) : string :=
  if String.eqb period "day" then
    JSDate.splitT0 (JSDate.toISOString date)
  else if String.eqb period "week" then
    let weekStart := date in
    let weekStart :=
      JSDate.setDate tz weekStart
        (JSDate.getDate tz date - JSDate.getDay tz date) in
    JSDate.splitT0 (JSDate.toISOString weekStart)
  else if String.eqb period "month" then
    JSDate.decimal (JSDate.getFullYear tz date) ++ "-" ++
    JSDate.padStart 2 (JSDate.decimal (JSDate.getMonth tz date + 1))
  else
    JSDate.splitT0 (JSDate.toISOString date).

(** Body of the [forEach] callback. *)
Definition aggregate_step (period : string) (aggregated : JSObject)
    (transaction : Transaction.t) : JSObject :=
  let date := Transaction.createdAt transaction in
  let key := period_key period date in
  let aggregated :=
    match obj_get aggregated key with
    | None => obj_set aggregated key (Bucket.mk key 0 0 [])
    | Some _ => aggregated
    end in
  match obj_get aggregated key with
  | Some b =>
      obj_set aggregated key
        (Bucket.mk (Bucket.date b)
           (Bucket.totalAmount b + Transaction.amount transaction)
           (Bucket.count b + 1)
           (Bucket.transactions b ++ [transaction]))
  | None => aggregated
  end.

(** The comparator [(a, b) => new Date(a.date) - new Date(b.date)]; a
    [NaN] result is read as zero by [sort]. *)
Definition compare_buckets (a b : Bucket.t) : Z :=
  match JSDate.parse legacy (Bucket.date a),
        JSDate.parse legacy (Bucket.date b) with
  | Some x, Some y => x - y
  | _, _ => 0
  end.

(** [Array.prototype.sort] is stable; it is modelled by insertion.  When
    every date is a valid one the comparator is a consistent one and the
    sorted array is determined by it; with an invalid date among them the
    comparator ties it with every other date, and the standard leaves the
    order to the engine: statements about the order assume valid dates,
    the others hold for every rearrangement. *)
Fixpoint insert_bucket (x : Bucket.t) (l : list Bucket.t)
  : list Bucket.t :=
  match l with
  | [] => [x]
  | y :: l' =>
      if compare_buckets y x <=? 0 then y :: insert_bucket x l'
      else x :: y :: l'
  end.

Definition sort_buckets (l : list Bucket.t) : list Bucket.t :=
  fold_left (fun acc x => insert_bucket x acc) l [].

Definition aggregateByPeriod (transactions : list Transaction.t)
    (period : string) : list Bucket.t :=
  let aggregated := fold_left (aggregate_step period) transactions [] in
  sort_buckets (Object_values aggregated).

End Aggregate.

(** Sums over the returned buckets and over the input.  They are sums of
    integers; they are the sums a [Number] computation arrives at, in
    whatever order it adds, as long as the amounts stay within
    [exact_amounts]. *)
Definition sum_field (f : Bucket.t -> Z) (bs : list Bucket.t) : Z :=
  fold_right (fun b acc => f b + acc) 0 bs.

Definition sum_count (bs : list Bucket.t) : Z := sum_field Bucket.count bs.

Definition sum_totalAmount (bs : list Bucket.t) : Z :=
  sum_field Bucket.totalAmount bs.

Definition sum_amount (txs : list Transaction.t) : Z :=
  fold_right (fun tx acc => Transaction.amount tx + acc) 0 txs.

(** The amounts are integers whose absolute values add up to at most
    [2^53]: every sum of some of them, in any grouping, is an integer a
    [Number] holds exactly, so no addition rounds. *)
Definition sum_abs_amount (txs : list Transaction.t) : Z :=
  fold_right (fun tx acc => Z.abs (Transaction.amount tx) + acc) 0 txs.

Definition exact_amounts (txs : list Transaction.t) : Prop :=
  sum_abs_amount txs <= 2 ^ 53.

(** ** [aggregateByPeriod] over binary64 numbers

    The same function with [amount] and [totalAmount] as the IEEE 754
    binary64 numbers they are in the engine: [+=] rounds to nearest at
    every step.  Only what the function reads of a transaction is kept. *)

Module Binary64.

Record transaction : Type := mkTransaction {
  createdAt : Z;
  amount : float
}.

Record bucket : Type := mkBucket {
  date : string;
  totalAmount : float;
  count : Z;
  transactions : list transaction
}.

Definition object : Type := list (string * bucket).

Fixpoint get (o : object) (key : string) : option bucket :=
  match o with
  | [] => None
  | (k, v) :: o' => if String.eqb k key then Some v else get o' key
  end.

Fixpoint set (o : object) (key : string) (v : bucket) : object :=
  match o with
  | [] => [(key, v)]
  | (k, w) :: o' =>
      if String.eqb k key then (k, v) :: o' else (k, w) :: set o' key v
  end.

Section Aggregate.

Variable tz : Z.
Variable legacy : string -> option Z.

Definition aggregate_step (period : string) (aggregated : object)
    (transaction : transaction) : object :=
  let key := period_key tz period (createdAt transaction) in
  let aggregated :=
    match get aggregated key with
    | None => set aggregated key (mkBucket key 0%float 0 [])
    | Some _ => aggregated
    end in
  match get aggregated key with
  | Some b =>
      set aggregated key
        (mkBucket (date b)
           (PrimFloat.add (totalAmount b) (amount transaction))
           (count b + 1)
           (transactions b ++ [transaction]))
  | None => aggregated
  end.

Definition compare_buckets (a b : bucket) : Z :=
  match JSDate.parse legacy (date a), JSDate.parse legacy (date b) with
  | Some x, Some y => x - y
  | _, _ => 0
  end.

Fixpoint insert_bucket (x : bucket) (l : list bucket) : list bucket :=
  match l with
  | [] => [x]
  | y :: l' =>
      if compare_buckets y x <=? 0 then y :: insert_bucket x l'
      else x :: y :: l'
  end.

Definition aggregateByPeriod (transactions : list transaction)
    (period : string) : list bucket :=
  let aggregated := fold_left (aggregate_step period) transactions [] in
  fold_left (fun acc x => insert_bucket x acc) (map snd aggregated) [].

End Aggregate.

(** [xs.reduce((sum, x) => sum + x, 0)] over the totals of the buckets
    and over the amounts of the input. *)
Definition sum_totalAmount (bs : list bucket) : float :=
  fold_left (fun sum b => PrimFloat.add sum (totalAmount b)) bs 0%float.

Definition sum_amount (txs : list transaction) : float :=
  fold_left (fun sum tx => PrimFloat.add sum (amount tx)) txs 0%float.

Definition sum_count (bs : list bucket) : Z :=
  fold_left (fun sum b => sum + count b) bs 0.

End Binary64.

(** ** The normal-balance rule in the words of the specification

    For asset and expense accounts a debit increases the balance and a
    credit decreases it; for liability, equity and revenue accounts the
    reverse. *)

Inductive AccountKind : Type := Asset | Liability | Equity | Revenue | Expense.

Inductive Direction : Type := Debit | Credit.

Definition kind_name (k : AccountKind) : string :=
  match k with
  | Asset => "asset"
  | Liability => "liability"
  | Equity => "equity"
  | Revenue => "revenue"
  | Expense => "expense"
  end.

Definition direction_name (d : Direction) : string :=
  match d with
  | Debit => "debit"
  | Credit => "credit"
  end.

Definition signedEffect (k : AccountKind) (d : Direction) (n : Z) : Z :=
  match k, d with
  | (Asset | Expense), Debit => n
  | (Asset | Expense), Credit => - n
  | (Liability | Equity | Revenue), Debit => - n
  | (Liability | Equity | Revenue), Credit => n
  end.

(** Sum, over a transaction history, of the signed effects on one account:
    a transaction debits the account on its debit side and credits the
    account on its credit side. *)
Definition history_balance (k : AccountKind) (accountId : string)
    (txs : list Transaction.t) : Z :=
  fold_right
    (fun tx acc =>
       (if String.eqb (Transaction.accountId (Transaction.debitAccount tx))
                      accountId
        then signedEffect k Debit (Transaction.amount tx) else 0)
       + (if String.eqb (Transaction.accountId (Transaction.creditAccount tx))
                        accountId
          then signedEffect k Credit (Transaction.amount tx) else 0)
       + acc)
    0 txs.

(** ** Observations on the database *)

(** The balance stored for an account id. *)
Definition storedBalance (db : Db) (id : string) : option Z :=
  Account.balance <$> Account_findById db id.

(** A call on the account document [id] returned normally, and both the
    returned document and the stored one carry balance [b]. *)
Definition balance_becomes (r : result (Account.t * Db)) (id : string)
    (b : Z) : Prop :=
  exists this' db',
    r = Ok (this', db')
    /\ Account.balance this' = b
    /\ storedBalance db' id = Some b.

(** ** Sample data *)

Module Sample.

Definition cash : Account.t :=
  Account.mk "a1" "1000" "Cash" "asset" None 100 0.

Definition loan : Account.t :=
  Account.mk "l1" "2000" "Bank loan" "liability" None 0 0.

Definition sales : Account.t :=
  Account.mk "r1" "4000" "Sales" "revenue" None 0 0.

Definition db0 : Db :=
  mkDb (<["a1" := cash]> (<["l1" := loan]> (<["r1" := sales]> ∅))) [].

Definition debit_cash : Transaction.side := Transaction.mkSide "asset" "a1".
Definition credit_sales : Transaction.side :=
  Transaction.mkSide "revenue" "r1".
Definition credit_loan : Transaction.side :=
  Transaction.mkSide "liability" "l1".

(** The employee [emp123] stands behind the sample transactions. *)
Definition by_employee : Transaction.ref :=
  Transaction.mkRef "employee" "emp123".

(** A sale of 250 paid in cash, still undecided. *)
Definition sale : Transaction.t :=
  Transaction.mk "t1" "TX-1" 250 "debit" debit_cash credit_sales
    (Some by_employee) "cash sale" "pending" None None None
    1700000000123 1700000000123.

(** The same sale after a manager turned it down. *)
Definition sale_rejected : Transaction.t :=
  Transaction.mk "t1" "TX-1" 250 "debit" debit_cash credit_sales
    (Some by_employee) "cash sale" "rejected" (Some "m1")  None
    (Some {["rejectionReason" := "no receipt"]})
    1700000000123 1700000500000.

(** A loan of 500 received in cash. *)
Definition borrowing : Transaction.t :=
  Transaction.mk "t2" "TX-2" 500 "debit" debit_cash credit_loan
    (Some by_employee) "loan received" "approved" (Some "m1") None None
    1700000000123 1700000000123.

(** An earlier purchase of 5. *)
Definition purchase : Transaction.t :=
  Transaction.mk "t0" "TX-0" 5 "purchase" debit_cash credit_loan
    (Some by_employee) "stamps" "pending" None None None
    1600000000000 1600000000000.

(** A new account document, not saved yet. *)
Definition petty : Account.t :=
  Account.mk "a9" "1010" "Petty cash" "asset" None 0 0.

Definition admin : User.t :=
  User.mk (Some "admin123") (Some "empAdmin") (Some "Admin").

Definition employee : Employee.t :=
  Employee.mk "emp123" "E" "Employee" (Some (mkObjectId "empManager")).

End Sample.

(** * The access-control side *)

(** ** [getRolesAtOrBelow] ([src/constants/roles.js]) *)

Definition getRolesAtOrBelow (role : string) : list string :=
  let index := indexOf ROLE_HIERARCHY role in
  if Z.eqb index (-1) then []
  else firstn (Z.to_nat (index + 1)) ROLE_HIERARCHY.

(** ** The permission matrix ([src/constants/permissions.js]) *)

Module PERMISSIONS.
Definition VIEW_ORGANIZATION : string := "view_organization".
Definition CREATE_ORGANIZATION : string := "create_organization".
Definition UPDATE_ORGANIZATION : string := "update_organization".
Definition DELETE_ORGANIZATION : string := "delete_organization".
Definition VIEW_BRANCH : string := "view_branch".
Definition CREATE_BRANCH : string := "create_branch".
Definition UPDATE_BRANCH : string := "update_branch".
Definition DELETE_BRANCH : string := "delete_branch".
Definition VIEW_EMPLOYEE : string := "view_employee".
Definition CREATE_EMPLOYEE : string := "create_employee".
Definition UPDATE_EMPLOYEE : string := "update_employee".
Definition DELETE_EMPLOYEE : string := "delete_employee".
Definition VIEW_VENDOR : string := "view_vendor".
Definition CREATE_VENDOR : string := "create_vendor".
Definition UPDATE_VENDOR : string := "update_vendor".
Definition DELETE_VENDOR : string := "delete_vendor".
Definition VIEW_TRANSACTION : string := "view_transaction".
Definition CREATE_TRANSACTION : string := "create_transaction".
Definition UPDATE_TRANSACTION : string := "update_transaction".
Definition APPROVE_TRANSACTION : string := "approve_transaction".
Definition REJECT_TRANSACTION : string := "reject_transaction".
Definition VIEW_REPORTS : string := "view_reports".
Definition VIEW_ALL_REPORTS : string := "view_all_reports".
End PERMISSIONS.

(** [Object.values(PERMISSIONS)]. *)
Definition PERMISSIONS_values : list string :=
  [PERMISSIONS.VIEW_ORGANIZATION; PERMISSIONS.CREATE_ORGANIZATION;
   PERMISSIONS.UPDATE_ORGANIZATION; PERMISSIONS.DELETE_ORGANIZATION;
   PERMISSIONS.VIEW_BRANCH; PERMISSIONS.CREATE_BRANCH;
   PERMISSIONS.UPDATE_BRANCH; PERMISSIONS.DELETE_BRANCH;
   PERMISSIONS.VIEW_EMPLOYEE; PERMISSIONS.CREATE_EMPLOYEE;
   PERMISSIONS.UPDATE_EMPLOYEE; PERMISSIONS.DELETE_EMPLOYEE;
   PERMISSIONS.VIEW_VENDOR; PERMISSIONS.CREATE_VENDOR;
   PERMISSIONS.UPDATE_VENDOR; PERMISSIONS.DELETE_VENDOR;
   PERMISSIONS.VIEW_TRANSACTION; PERMISSIONS.CREATE_TRANSACTION;
   PERMISSIONS.UPDATE_TRANSACTION; PERMISSIONS.APPROVE_TRANSACTION;
   PERMISSIONS.REJECT_TRANSACTION;
   PERMISSIONS.VIEW_REPORTS; PERMISSIONS.VIEW_ALL_REPORTS].

(** The own properties of the object literal [PERMISSION_MATRIX]. *)
Definition PERMISSION_MATRIX : list (string * list string) :=
  [(ROLES.ADMIN, PERMISSIONS_values);
   (ROLES.BRANCH_MANAGER,
    [PERMISSIONS.VIEW_ORGANIZATION;
     PERMISSIONS.VIEW_BRANCH;
     PERMISSIONS.UPDATE_BRANCH;
     PERMISSIONS.VIEW_EMPLOYEE;
     PERMISSIONS.CREATE_EMPLOYEE;
     PERMISSIONS.UPDATE_EMPLOYEE;
     PERMISSIONS.VIEW_VENDOR;
     PERMISSIONS.CREATE_VENDOR;
     PERMISSIONS.UPDATE_VENDOR;
     PERMISSIONS.VIEW_TRANSACTION;
     PERMISSIONS.APPROVE_TRANSACTION;
     PERMISSIONS.REJECT_TRANSACTION;
     PERMISSIONS.VIEW_REPORTS]);
   (ROLES.EMPLOYEE,
    [PERMISSIONS.VIEW_ORGANIZATION;
     PERMISSIONS.VIEW_BRANCH;
     PERMISSIONS.VIEW_EMPLOYEE;
     PERMISSIONS.VIEW_VENDOR;
     PERMISSIONS.VIEW_TRANSACTION;
     PERMISSIONS.CREATE_TRANSACTION;
     PERMISSIONS.UPDATE_TRANSACTION;
     PERMISSIONS.VIEW_REPORTS]);
   (ROLES.VENDOR,
    [PERMISSIONS.VIEW_VENDOR;
     PERMISSIONS.VIEW_TRANSACTION;
     PERMISSIONS.VIEW_REPORTS])].

(** Reading a property of a plain object literal: an own property, a
    member inherited from [Object.prototype], or [undefined]. *)
Inductive property (A : Type) : Type :=
  | Own (a : A)
  | Inherited
  | Undefined.

Arguments Own {A} a.
Arguments Inherited {A}.
Arguments Undefined {A}.

(** The property names of [Object.prototype]. *)
Definition Object_prototype_names : list string :=
  ["constructor"; "__defineGetter__"; "__defineSetter__"; "hasOwnProperty";
   "__lookupGetter__"; "__lookupSetter__"; "isPrototypeOf";
   "propertyIsEnumerable"; "toString"; "valueOf"; "__proto__";
   "toLocaleString"].

Fixpoint own_property {A : Type} (o : list (string * A)) (key : string)
  : option A :=
  match o with
  | [] => None
  | (k, v) :: o' => if String.eqb k key then Some v else own_property o' key
  end.

Definition get_property {A : Type} (o : list (string * A)) (key : string)
  : property A :=
  match own_property o key with
  | Some v => Own v
  | None =>
      if includes Object_prototype_names key then Inherited else Undefined
  end.

(** [PERMISSION_MATRIX[role]?.includes(permission) || false].  An inherited
    member is neither [null] nor [undefined], so [?.] goes on to call its
    missing [includes]. *)
Definition hasPermission (role permission : string) : outcome bool :=
  match get_property PERMISSION_MATRIX role with
  | Own permissions => Return (includes permissions permission || false)
  | Inherited => Raise TypeError
  | Undefined => Return false
  end.

(** ** [isAuthorized], [isOwner]
    ([src/handles/permissions.js]) *)

(** Truthiness of a possibly missing string property. *)
Definition truthy_str (x : option string) : bool :=
  match x with
  | Some s => negb (String.eqb s "")
  | None => false
  end.

(** [x === y] for two possibly missing string properties. *)
Definition strict_eq_opt (x y : option string) : bool :=
  match x, y with
  | Some a, Some b => String.eqb a b
  | None, None => true
  | _, _ => false
  end.

Definition isAuthorized (user : option User.t) (permission : string)
  : outcome bool :=
  match user with
  | None => Return false
  | Some u =>
      if negb (truthy_str (User.designation u)) then Return false
      else
        match hasPermission (default "" (User.designation u)) permission with
        | Raise x => Raise x
        | Return granted =>
            if negb granted then Return false else Return true
        end
  end.

Module Resource.

(** Any object handed to [isOwner]: only these two properties are read. *)
Record t : Type := mk {
  userId : option string;
  employeeId : option string
}.

End Resource.

Definition isOwner (user : option User.t) (resource : option Resource.t)
  : bool :=
  match user, resource with
  | Some u, Some r =>
      if truthy_str (Resource.userId r)
         && strict_eq_opt (Resource.userId r) (User.userId u)
      then true
      else if truthy_str (Resource.employeeId r)
              && strict_eq_opt (Resource.employeeId r) (User.employeeId u)
      then true
      else false
  | _, _ => false
  end.

(** ** The resolver wrappers ([src/middleware/rbac.js]) *)

Module Principal.

(** [context.user]: the three identity properties and the truthiness of
    its [isAuthenticated] property. *)
Record t : Type := mk {
  user : User.t;
  isAuthenticated : bool
}.

End Principal.

Module Context.

Record t : Type := mk {
  user : option Principal.t;
  isAuthenticated : bool
}.

End Context.

Section Wrappers.

(** What a resolver returns, and a resolver: a function of [args.id] and
    of the context. *)
Variable A : Type.
Variable resolver : option string -> Context.t -> outcome A.

(** [withPermission(permission, resolver, options)], applied to
    [args.id] and a context.  The [requireOwnership] branch only logs; the
    [catch] around the resolver logs and throws the same error again. *)
Definition withPermission (permission : string) (requireOwnership : bool)
    (id : option string) (context : Context.t) : outcome A :=
  match Context.user context with
  | None => Raise (CustomError AuthorizationError "Authentication required")
  | Some p =>
      if negb (Principal.isAuthenticated p) then
        Raise (CustomError AuthorizationError "Authentication required")
      else
        match isAuthorized (Some (Principal.user p)) permission with
        | Raise x => Raise x
        | Return authorized =>
            if negb authorized then
              Raise (CustomError AuthorizationError
                       ("Insufficient permissions. Required: " ++ permission))
            else
              match resolver id context with
              | Return a => Return a
              | Raise error => Raise error
              end
        end
  end.

(** [withManagementCheck(getResource, resolver)]. *)
Definition withManagementCheck
    (getResource : option string -> outcome (option Employee.t))
    (id : option string) (context : Context.t) : outcome A :=
  let user := Principal.user <$> Context.user context in
  match getResource id with
  | Raise x => Raise x
  | Return resource =>
      match resource with
      | None => Raise (PlainError "Resource not found")
      | Some _ =>
          if negb (isManager user resource) then
            Raise (CustomError AuthorizationError
                     "You do not manage this resource")
          else resolver id context
      end
  end.

End Wrappers.

(** ** Bearer tokens ([src/utils/jwt.js], [src/middleware/auth.js]) *)

(** [s.split(" ")]. *)
Fixpoint split_space (s : string) : list string :=
  match s with
  | EmptyString => [EmptyString]
  | String c s' =>
      if Ascii.eqb c " "%char then EmptyString :: split_space s'
      else
        match split_space s' with
        | [] => [String c EmptyString]
        | part :: parts => String c part :: parts
        end
  end.

(** [extractTokenFromHeader]; [None] is [null] on the way out and a
    missing header on the way in. *)
Definition extractTokenFromHeader (authHeader : option string)
  : option string :=
  if negb (truthy_str authHeader) then None
  else
    let parts := split_space (default "" authHeader) in
    if negb (Nat.eqb (length parts) 2)
       || negb (strict_eq_str (parts !! 0%nat) "Bearer")
    then None
    else parts !! 1%nat.

Module Payload.

(** What [jwt.verify] decodes: the identity claims and the [type] claim. *)
Record t : Type := mk {
  userId : option string;
  employeeId : option string;
  designation : option string;
  type : option string
}.

End Payload.

(** What the library call [jwt.verify(token, JWT_SECRET)] does: it returns
    the payload or throws an error whose [name] is one of the two the code
    tests for, or some other error. *)
Inductive jwt_verdict : Type :=
  | Decoded (payload : Payload.t)
  | TokenExpiredError
  | JsonWebTokenError
  | OtherJwtError (x : exn).

Module Headers.

Record t : Type := mk {
  authorization : option string;
  Authorization : option string
}.

End Headers.

(** [a || b] on two possibly missing strings. *)
Definition or_else (a b : option string) : option string :=
  if truthy_str a then a else b.

Section Auth.

Variable jwt_verify : string -> jwt_verdict.

Definition verifyAccessToken (token : string) : outcome Payload.t :=
  match jwt_verify token with
  | Decoded payload => Return payload
  | TokenExpiredError => Raise (PlainError "Token expired")
  | JsonWebTokenError => Raise (PlainError "Invalid token")
  | OtherJwtError x => Raise x
  end.

(** The object literal [{ userId, employeeId, designation }] built from the
    decoded payload; it has no [isAuthenticated] property. *)
Definition user_of_payload (decoded : Payload.t) : Principal.t :=
  Principal.mk
    (User.mk (Payload.userId decoded) (Payload.employeeId decoded)
       (Payload.designation decoded))
    false.

(** [buildAuthContext(event)]; the argument is [event.headers], which may
    be missing. *)
Definition buildAuthContext (headers : option Headers.t) : Context.t :=
  let context := Context.mk None false in
  let authHeader :=
    or_else (headers ≫= Headers.Authorization)
            (headers ≫= Headers.authorization) in
  let token := extractTokenFromHeader authHeader in
  if negb (truthy_str token) then context
  else
    match verifyAccessToken (default "" token) with
    | Raise _ => context
    | Return decoded => Context.mk (Some (user_of_payload decoded)) true
    end.

(** [authenticate(req, res, next)]: the result is the user attached to the
    request once [next()] has returned.  Every throw inside the [try],
    including one from [next], is replaced in the [catch]. *)
Definition authenticate (headers : Headers.t)
    (next : Principal.t -> outcome unit) : outcome Principal.t :=
  let authHeader :=
    or_else (Headers.authorization headers) (Headers.Authorization headers) in
  let token := extractTokenFromHeader authHeader in
  let attempt : outcome Principal.t :=
    if negb (truthy_str token) then
      Raise (CustomError AuthenticationError "No token provided")
    else
      match verifyAccessToken (default "" token) with
      | Raise x => Raise x
      | Return decoded =>
          let user := user_of_payload decoded in
          match next user with
          | Raise x => Raise x
          | Return _ => Return user
          end
      end in
  match attempt with
  | Return user => Return user
  | Raise _ =>
      Raise (CustomError AuthenticationError "Invalid or expired token")
  end.

End Auth.

(** Whether a string contains a space. *)
Fixpoint has_space (s : string) : bool :=
  match s with
  | EmptyString => false
  | String c s' => Ascii.eqb c " "%char || has_space s'
  end.

(** * The ledger side *)

Definition Transaction_set_linkedTransaction (l : option string)
    (x : Transaction.t) : Transaction.t :=
  Transaction.mk (Transaction._id x) (Transaction.transactionId x)
    (Transaction.amount x) (Transaction.type x) (Transaction.debitAccount x)
    (Transaction.creditAccount x) (Transaction.reference x)
    (Transaction.description x) (Transaction.status x)
    (Transaction.approvedBy x) l (Transaction.metadata x)
    (Transaction.createdAt x) (Transaction.updatedAt x).

Definition Transaction_set_transactionId (i : string) (x : Transaction.t)
  : Transaction.t :=
  Transaction.mk (Transaction._id x) i
    (Transaction.amount x) (Transaction.type x) (Transaction.debitAccount x)
    (Transaction.creditAccount x) (Transaction.reference x)
    (Transaction.description x) (Transaction.status x)
    (Transaction.approvedBy x) (Transaction.linkedTransaction x)
    (Transaction.metadata x) (Transaction.createdAt x)
    (Transaction.updatedAt x).

Section Writes.

(** The verdict of the driver on a document handed to it by [save()]. *)
Variable refuses : Transaction.t -> option exn.

(** ** [createDoubleEntryTransaction] ([src/utils/doubleEntry.js])

    [timestamp] is the reading of [Date.now()] (the later readings, for
    the schema defaults and the [pre("save")] hook, are taken equal to
    it), [rnd1] and [rnd2] the two random suffixes, [oid1] and [oid2] the
    [_id]s Mongoose gives the two new documents.  Neither document is
    given a [reference].  The database is returned beside the outcome,
    because a throw does not undo a write made before it. *)
Definition createDoubleEntryTransaction (timestamp : Z)
    (rnd1 rnd2 oid1 oid2 : string)
    (debitData creditData : option Transaction.side) (amount : Z)
    (description : string) (db : Db)
  : outcome (Transaction.t * Transaction.t) * Db :=
  match debitData, creditData with
  | Some debitData, Some creditData =>
      if amount <=? 0 then
        (Raise (CustomError ValidationError
                  "Transaction amount must be greater than 0"), db)
      else
        let failed :=
          Raise (CustomError DatabaseError
                   "Failed to create double-entry transaction") in
        match Account_findById db (Transaction.accountId debitData),
              Account_findById db (Transaction.accountId creditData) with
        | None, _ => (failed, db)
        | Some _, None => (failed, db)
        | Some _, Some _ =>
            let debitId :=
              "TX-DEBIT-" ++ JSDate.decimal timestamp ++ "-" ++ rnd1 in
            let creditId :=
              "TX-CREDIT-" ++ JSDate.decimal timestamp ++ "-" ++ rnd2 in
            let debitTransaction :=
              Transaction_new oid1 debitId amount "debit" debitData
                creditData None description (Some "pending") None
                timestamp in
            let creditTransaction :=
              Transaction_new oid2 creditId amount "credit" debitData
                creditData None description (Some "pending") None
                timestamp in
            let debitTransaction :=
              Transaction_set_linkedTransaction
                (Some (Transaction._id creditTransaction))
                debitTransaction in
            let creditTransaction :=
              Transaction_set_linkedTransaction
                (Some (Transaction._id debitTransaction))
                creditTransaction in
            match Transaction_try_save refuses timestamp debitTransaction db with
            | Raise _ => (failed, db)
            | Return (debitTransaction, db1) =>
                match Transaction_try_save refuses timestamp creditTransaction db1
                with
                | Raise _ => (failed, db1)
                | Return (creditTransaction, db2) =>
                    (Return (debitTransaction, creditTransaction), db2)
                end
            end
        end
  | _, _ =>
      (Raise (CustomError ValidationError
                "Both debit and credit accounts are required"), db)
  end.

(** ** [transactionSchema.methods.createDoubleEntry]
    ([src/models/Transaction.js])

    [partnerTransaction] is the document the spread
    [{ ...partnerTransaction, linkedTransaction, transactionId }] would
    construct on its own; the two properties written after the spread
    replace whatever it carried.  The result is the partner and the updated
    [this]. *)
Definition createDoubleEntry (now : Z) (rnd : string)
    (this partnerTransaction : Transaction.t) (db : Db)
  : outcome (Transaction.t * Transaction.t) * Db :=
  let partner :=
    Transaction_set_transactionId
      ("TX-" ++ JSDate.decimal now ++ "-" ++ rnd)
      (Transaction_set_linkedTransaction (Some (Transaction._id this))
         partnerTransaction) in
  match Transaction_try_save refuses now partner db with
  | Raise x => (Raise x, db)
  | Return (partner, db1) =>
      let this1 :=
        Transaction_set_linkedTransaction (Some (Transaction._id partner))
          this in
      match Transaction_try_save refuses now this1 db1 with
      | Raise x => (Raise x, db1)
      | Return (this2, db2) => (Return (partner, this2), db2)
      end
  end.

End Writes.

(** ** [calculateRunningBalance] ([src/utils/ledger.js]) *)

Module Running.

(** [{ ...transaction.toObject(), runningBalance }]. *)
Record t : Type := mk {
  transaction : Transaction.t;
  runningBalance : Z
}.

End Running.

(** The callback of [map], with the captured [runningBalance] threaded. *)
Definition running_step (runningBalance : Z) (transaction : Transaction.t)
  : Z :=
  if String.eqb (Transaction.type transaction) "debit"
     || String.eqb (Transaction.type transaction) "purchase"
  then runningBalance + Transaction.amount transaction
  else if String.eqb (Transaction.type transaction) "credit"
          || String.eqb (Transaction.type transaction) "refund"
  then runningBalance - Transaction.amount transaction
  else runningBalance.

Fixpoint running_from (runningBalance : Z) (transactions : list Transaction.t)
  : list Running.t :=
  match transactions with
  | [] => []
  | transaction :: rest =>
      let runningBalance := running_step runningBalance transaction in
      Running.mk transaction runningBalance
      :: running_from runningBalance rest
  end.

Definition calculateRunningBalance (transactions : list Transaction.t)
  : list Running.t :=
  running_from 0 transactions.

(** ** The sign rule of the running balance, in the words of its
    description

    A transaction of type debit or purchase counts with its amount, one of
    type credit or refund with the opposite of its amount, one of any
    other type not at all; [signed_total] adds these from the first
    transaction on, starting from zero. *)
Inductive Sign : Type := Plus | Minus | Neither.

Definition sign_of_type (type : string) : Sign :=
  if includes ["debit"; "purchase"] type then Plus
  else if includes ["credit"; "refund"] type then Minus
  else Neither.

Definition signed_amount (transaction : Transaction.t) : Z :=
  match sign_of_type (Transaction.type transaction) with
  | Plus => Transaction.amount transaction
  | Minus => - Transaction.amount transaction
  | Neither => 0
  end.

Definition signed_total (transactions : list Transaction.t) : Z :=
  fold_left (fun total tx => total + signed_amount tx) transactions 0.

(** ** What [aggregateByPeriod] keeps true while it runs

    [bucket_ok key b done]: the bucket stored under [key], after the
    transactions [done] have been visited, lists exactly the visited
    transactions of that period, in the order of the input, and its two
    counters agree with that list.  [aggregated_ok o done]: the keys of the
    object are distinct, every bucket is as described, and every visited
    transaction has its bucket. *)

Section AggregateInvariant.

Variable tz : Z.
Variable period : string.

Definition key_of (tx : Transaction.t) : string :=
  period_key tz period (Transaction.createdAt tx).

Definition same_period (key : string) (tx : Transaction.t) : bool :=
  String.eqb (key_of tx) key.

Definition bucket_ok (key : string) (b : Bucket.t)
    (done : list Transaction.t) : Prop :=
  Bucket.date b = key
  /\ Bucket.transactions b = List.filter (same_period key) done
  /\ Bucket.transactions b <> []
  /\ Bucket.count b = Z.of_nat (length (Bucket.transactions b))
  /\ Bucket.totalAmount b = sum_amount (Bucket.transactions b).

Definition aggregated_ok (o : JSObject) (done : list Transaction.t) : Prop :=
  List.NoDup (map fst o)
  /\ List.Forall (fun kb => bucket_ok (fst kb) (snd kb) done) o
  /\ (forall tx, In tx done -> In (key_of tx) (map fst o)).

End AggregateInvariant.

(** Buckets in nondecreasing order of the time value of their date. *)
Fixpoint chronological (legacy : string -> option Z) (bs : list Bucket.t)
  : Prop :=
  match bs with
  | [] => True
  | b :: rest =>
      List.Forall (fun b' => compare_buckets legacy b b' <= 0) rest
      /\ chronological legacy rest
  end.

(** Every period key of the input is a date [new Date] reads. *)
Definition dates_parse (tz : Z) (legacy : string -> option Z)
    (period : string) (transactions : list Transaction.t) : Prop :=
  forall tx,
    In tx transactions ->
    is_Some
      (JSDate.parse legacy
         (period_key tz period (Transaction.createdAt tx))).

(** ** More sample data *)

Module Fixture.

Definition manager : User.t :=
  User.mk (Some "manager123") (Some "empManager") (Some "BranchManager").

Definition manager_context : Context.t :=
  Context.mk (Some (Principal.mk manager true)) false.

(** A resolver that answers with the id it was asked for. *)
Definition echo (id : option string) (_ : Context.t) : outcome string :=
  Return (default "" id).

Definition find_employee (id : option string)
  : outcome (option Employee.t) :=
  if strict_eq_str id "emp123" then Return (Some Sample.employee)
  else Return None.

End Fixture.
(** * Properties *)

(** ** Stores *)

Lemma find_upsert (x : Transaction.t) (l : list Transaction.t) :
  find (fun y => String.eqb (Transaction._id y) (Transaction._id x))
       (upsert x l) = Some x.
Proof.
  induction l as [|y l IH]; simpl.
  - now rewrite String.eqb_refl.
  - destruct (String.eqb (Transaction._id y) (Transaction._id x)) eqn:E; simpl.
    + now rewrite String.eqb_refl.
    + now rewrite E.
Qed.

Lemma findById_after_save (x : Transaction.t) (db : Db) :
  Transaction_findById (Transaction_save x db) (Transaction._id x) = Some x.
Proof. unfold Transaction_findById, Transaction_save; simpl. apply find_upsert. Qed.

Lemma storedBalance_after_save (a : Account.t) (db : Db) :
  storedBalance (Account_save a db) (Account._id a) = Some (Account.balance a).
Proof.
  unfold storedBalance, Account_findById, Account_save; simpl.
  now rewrite lookup_insert_eq.
Qed.

Lemma includes_In (l : list string) (x : string) :
  includes l x = true <-> In x l.
Proof.
  induction l as [|y l IH]; simpl.
  - split; [discriminate | tauto].
  - rewrite orb_true_iff, IH, String.eqb_eq. tauto.
Qed.

(** ** [updateBalance] *)

(** What [updateBalance] does on each of its three branches, for any amount. *)
Lemma updateBalance_debit now this amount db :
  updateBalance now this amount "debit" db =
  let b := if includes ["asset"; "expense"] (Account.accountType this)
           then Account.balance this + amount
           else Account.balance this - amount in
  let this' := Account.set_updatedAt now (Account.set_balance b this) in
  Ok (this', Account_save this' db).
Proof.
  unfold updateBalance. rewrite String.eqb_refl.
  now destruct (includes ["asset"; "expense"] (Account.accountType this)).
Qed.

Lemma updateBalance_credit now this amount db :
  updateBalance now this amount "credit" db =
  let b := if includes ["asset"; "expense"] (Account.accountType this)
           then Account.balance this - amount
           else Account.balance this + amount in
  let this' := Account.set_updatedAt now (Account.set_balance b this) in
  Ok (this', Account_save this' db).
Proof.
  unfold updateBalance.
  change (String.eqb "credit" "debit") with false.
  rewrite String.eqb_refl.
  now destruct (includes ["asset"; "expense"] (Account.accountType this)).
Qed.

Lemma updateBalance_other now this amount operation db :
  operation <> "debit" -> operation <> "credit" ->
  updateBalance now this amount operation db =
  Ok (Account.set_updatedAt now this,
      Account_save (Account.set_updatedAt now this) db).
Proof.
  intros Hd Hc. unfold updateBalance.
  apply String.eqb_neq in Hd, Hc. now rewrite Hd, Hc.
Qed.

Lemma balance_becomes_save now b this db :
  balance_becomes
    (let this' := Account.set_updatedAt now (Account.set_balance b this) in
     Ok (this', Account_save this' db))
    (Account._id this) b.
Proof.
  simpl. eexists _, _. split; [reflexivity|]. split; [reflexivity|].
  apply (storedBalance_after_save
           (Account.set_updatedAt now (Account.set_balance b this))).
Qed.

(** The signed amount the code adds to the balance, for any amount and any
    of the five account types, is the one the normal-balance rule names. *)
Lemma updateBalance_signedEffect now this n db (k : AccountKind)
    (d : Direction) :
  Account.accountType this = kind_name k ->
  balance_becomes (updateBalance now this n (direction_name d) db)
    (Account._id this) (Account.balance this + signedEffect k d n).
Proof.
  intros Hk.
  destruct d; simpl direction_name;
    [rewrite updateBalance_debit | rewrite updateBalance_credit];
    rewrite Hk; destruct k;
    exact (balance_becomes_save now _ this db).
Qed.

Lemma kind_of_debit_normal (ty : string) :
  In ty ["asset"; "expense"] -> ty = kind_name Asset \/ ty = kind_name Expense.
Proof. simpl. intuition. Qed.

Lemma kind_of_credit_normal (ty : string) :
  In ty ["liability"; "equity"; "revenue"] ->
  ty = kind_name Liability \/ ty = kind_name Equity \/ ty = kind_name Revenue.
Proof. simpl. intuition. Qed.

(** C3.  For every account and every amount [n > 0], [updateBalance] obeys
    the normal-balance rule: on an asset or expense account a debit raises
    the stored balance by [n] and a credit lowers it by [n]; on a liability,
    equity or revenue account a debit lowers it by [n] and a credit raises
    it by [n]. *)
Theorem updateBalance_normal_balance_rule (now : Z) (this : Account.t)
    (n : Z) (db : Db) :
  0 < n ->
  Account_findById db (Account._id this) = Some this ->
  (In (Account.accountType this) ["asset"; "expense"] ->
     balance_becomes (updateBalance now this n "debit" db)
       (Account._id this) (Account.balance this + n)
     /\ balance_becomes (updateBalance now this n "credit" db)
          (Account._id this) (Account.balance this - n))
  /\
  (In (Account.accountType this) ["liability"; "equity"; "revenue"] ->
     balance_becomes (updateBalance now this n "debit" db)
       (Account._id this) (Account.balance this - n)
     /\ balance_becomes (updateBalance now this n "credit" db)
          (Account._id this) (Account.balance this + n)).
Proof.
  intros _ _. split; intros Hty.
  - apply kind_of_debit_normal in Hty as [Hk | Hk]; split.
    + exact (updateBalance_signedEffect now this n db Asset Debit Hk).
    + exact (updateBalance_signedEffect now this n db Asset Credit Hk).
    + exact (updateBalance_signedEffect now this n db Expense Debit Hk).
    + exact (updateBalance_signedEffect now this n db Expense Credit Hk).
  - apply kind_of_credit_normal in Hty as [Hk | [Hk | Hk]]; split.
    + exact (updateBalance_signedEffect now this n db Liability Debit Hk).
    + exact (updateBalance_signedEffect now this n db Liability Credit Hk).
    + exact (updateBalance_signedEffect now this n db Equity Debit Hk).
    + exact (updateBalance_signedEffect now this n db Equity Credit Hk).
    + exact (updateBalance_signedEffect now this n db Revenue Debit Hk).
    + exact (updateBalance_signedEffect now this n db Revenue Credit Hk).
Qed.

Lemma updateBalance_normal_balance_rule_witness :
  balance_becomes (updateBalance 5 Sample.cash 30 "debit" Sample.db0) "a1" 130
  /\ balance_becomes (updateBalance 5 Sample.cash 30 "credit" Sample.db0)
       "a1" 70.
Proof.
  refine (proj1 (updateBalance_normal_balance_rule 5 Sample.cash 30
                   Sample.db0 _ _) _).
  - lia.
  - vm_compute; reflexivity.
  - simpl; auto.
Defined.

(** C5, as the code has it.  [updateBalance] has no guard on the amount
    and looks nothing up.  For every account of one of the five types and
    either direction: on a stored account and [n <= 0] the call returns
    normally and moves the stored balance by the same signed normal-balance
    effect as for a positive amount (nothing for [n = 0], the opposite way
    for [n < 0]); on an account document that is not in the store yet (a
    new document that passes the validators and whose [accountCode] is
    unused) the call raises no [NotFoundError]: it returns normally and
    its [save()] stores the document with the balance moved by the signed
    effect. *)
Theorem updateBalance_nonpositive_amount (now : Z) (this : Account.t)
    (n : Z) (db : Db) (k : AccountKind) (d : Direction) :
  Account.accountType this = kind_name k ->
  (n <= 0 ->
   Account_findById db (Account._id this) = Some this ->
   balance_becomes (updateBalance now this n (direction_name d) db)
     (Account._id this) (Account.balance this + signedEffect k d n))
  /\ (Account_findById db (Account._id this) = None ->
      Account_valid this = true ->
      accountCode_unused this db = true ->
      updateBalance now this n (direction_name d) db <> Throw NotFoundError
      /\ balance_becomes (updateBalance now this n (direction_name d) db)
           (Account._id this) (Account.balance this + signedEffect k d n)).
Proof.
  intros Hk. split.
  - intros _ _. now apply updateBalance_signedEffect.
  - intros _ _ _. split; [discriminate|].
    now apply updateBalance_signedEffect.
Qed.

Lemma updateBalance_nonpositive_amount_witness :
  balance_becomes (updateBalance 5 Sample.cash (-30) "credit" Sample.db0)
    "a1" 130
  /\ balance_becomes (updateBalance 5 Sample.petty 40 "debit" Sample.db0)
       "a9" 40.
Proof.
  split.
  - refine (proj1 (updateBalance_nonpositive_amount 5 Sample.cash (-30)
                     Sample.db0 Asset Credit _) _ _).
    + reflexivity.
    + lia.
    + vm_compute; reflexivity.
  - refine (proj2 (proj2 (updateBalance_nonpositive_amount 5 Sample.petty
                            40 Sample.db0 Asset Debit _) _ _ _)).
    + reflexivity.
    + vm_compute; reflexivity.
    + vm_compute; reflexivity.
    + vm_compute; reflexivity.
Defined.

(** C5 as stated fails, in both halves.  A debit of [-30] on the asset
    account [a1], whose stored balance is 100, raises no [ValidationError]
    and leaves 70 in the store.  A debit of 40 on the new account document
    [a9], which passes the validators and is not in the store, raises no
    [NotFoundError]: the call returns and the document is stored with
    balance 40. *)
Lemma updateBalance_negative_amount_accepted :
  (storedBalance Sample.db0 "a1" = Some 100
   /\ updateBalance 5 Sample.cash (-30) "debit" Sample.db0
      <> Throw ValidationError
   /\ exists this' db',
        updateBalance 5 Sample.cash (-30) "debit" Sample.db0
        = Ok (this', db')
        /\ storedBalance db' "a1" = Some 70
        /\ storedBalance db' "a1" <> storedBalance Sample.db0 "a1")
  /\ (Account_findById Sample.db0 "a9" = None
      /\ Account_valid Sample.petty = true
      /\ accountCode_unused Sample.petty Sample.db0 = true
      /\ updateBalance 5 Sample.petty 40 "debit" Sample.db0
         <> Throw NotFoundError
      /\ exists this' db',
           updateBalance 5 Sample.petty 40 "debit" Sample.db0
           = Ok (this', db')
           /\ storedBalance db' "a9" = Some 40).
Proof.
  split.
  - split; [vm_compute; reflexivity|].
    split; [discriminate|].
    eexists _, _. split; [reflexivity|].
    split; [vm_compute; reflexivity | vm_compute; discriminate].
  - split; [vm_compute; reflexivity|].
    split; [vm_compute; reflexivity|].
    split; [vm_compute; reflexivity|].
    split; [discriminate|].
    eexists _, _. split; [reflexivity|]. vm_compute; reflexivity.
Qed.


(** C10.  For every account, every amount and every operation string other
    than ["debit"] and ["credit"], [updateBalance] returns normally; the
    stored document is the old one with only [updatedAt] rewritten, so the
    stored balance is unchanged, and no other document is touched. *)
Theorem updateBalance_unknown_operation (now : Z) (this : Account.t)
    (amount : Z) (operation : string) (db : Db) :
  operation <> "debit" ->
  operation <> "credit" ->
  Account_findById db (Account._id this) = Some this ->
  exists db',
    updateBalance now this amount operation db
    = Ok (Account.set_updatedAt now this, db')
    /\ Account_findById db' (Account._id this)
       = Some (Account.set_updatedAt now this)
    /\ Account.balance (Account.set_updatedAt now this) = Account.balance this
    /\ storedBalance db' (Account._id this)
       = storedBalance db (Account._id this)
    /\ (forall id, id <> Account._id this ->
          Account_findById db' id = Account_findById db id)
    /\ transactions db' = transactions db.
Proof.
  intros Hd Hc Hin.
  rewrite (updateBalance_other now this amount operation db Hd Hc).
  eexists. split; [reflexivity|].
  unfold storedBalance, Account_findById in *. simpl.
  rewrite lookup_insert_eq, Hin. repeat split.
  intros id Hid. now rewrite lookup_insert_ne.
Qed.

Lemma updateBalance_unknown_operation_witness :
  exists db',
    updateBalance 5 Sample.cash 30 "transfer" Sample.db0
    = Ok (Account.set_updatedAt 5 Sample.cash, db')
    /\ storedBalance db' "a1" = storedBalance Sample.db0 "a1".
Proof.
  destruct (updateBalance_unknown_operation 5 Sample.cash 30 "transfer"
              Sample.db0) as [db' [H1 [_ [_ [H2 _]]]]].
  - discriminate.
  - discriminate.
  - vm_compute; reflexivity.
  - exists db'. split; [exact H1 | exact H2].
Defined.

(** ** [approve] and [reject] *)

(** Neither decision writes to the accounts collection. *)
Lemma approve_accounts now this approverId db this' db' :
  approve now this approverId db = Ok (this', db') ->
  accounts db' = accounts db.
Proof. unfold approve. intros H; injection H as _ <-. reflexivity. Qed.

Lemma reject_accounts now this approverId reason db this' db' :
  reject now this approverId reason db = Ok (this', db') ->
  accounts db' = accounts db.
Proof. unfold reject. intros H; injection H as _ <-. reflexivity. Qed.

Lemma storedBalance_accounts db db' id :
  accounts db' = accounts db -> storedBalance db' id = storedBalance db id.
Proof. unfold storedBalance, Account_findById. now intros ->. Qed.

(** What [approve] writes keeps a document within the schema. *)
Lemma Transaction_valid_approved (now : Z) (this : Transaction.t)
    (approverId : string) :
  Transaction_valid this = true ->
  Transaction_valid
    (Transaction.set_updatedAt now
       (Transaction.set_updatedAt now
          (Transaction.set_approvedBy (Some approverId)
             (Transaction.set_status "approved" this)))) = true.
Proof.
  unfold Transaction_valid. cbn [Transaction.reference
    Transaction.transactionId Transaction.amount Transaction.type
    Transaction.debitAccount Transaction.creditAccount Transaction.status
    Transaction.set_updatedAt Transaction.set_approvedBy
    Transaction.set_status].
  intros H. apply andb_prop in H as [H _].
  rewrite H. reflexivity.
Qed.

(** [approve] has a single path, whatever the status it finds. *)
Lemma approve_any_status now this approverId db :
  exists this' db',
    approve now this approverId db = Ok (this', db')
    /\ Transaction.status this' = "approved"
    /\ Transaction.approvedBy this' = Some approverId
    /\ Transaction._id this' = Transaction._id this
    /\ Transaction_findById db' (Transaction._id this) = Some this'
    /\ accounts db' = accounts db.
Proof.
  eexists _, _. split; [reflexivity|]. repeat split.
  apply (findById_after_save
           (Transaction.set_updatedAt now
              (Transaction.set_updatedAt now
                 (Transaction.set_approvedBy (Some approverId)
                    (Transaction.set_status "approved" this))))).
Qed.

(** C1, as the code has it.  For all accounts [A] (debit side) and [B]
    (credit side) and every amount [n > 0]: creating a transaction
    [(A, B, n)] that passes the validators of the schema, with a driver
    that accepts the write, gives a pending record, and approving it marks
    it approved and records the approver; no posting is applied, so the
    stored balances of [A] and [B] (and every other account) are what
    they were. *)
Theorem create_then_approve_keeps_balances
    (refuses : Transaction.t -> option exn) (now1 now2 : Z) (db : Db)
    (id transactionId type description : string) (n : Z)
    (A B : Transaction.side) (reference : option Transaction.ref)
    (status linked : option string) (approverId : string) :
  0 < n ->
  status = None \/ status = Some "pending" ->
  Transaction_valid
    (Transaction_new id transactionId n type A B reference description
       status linked now1) = true ->
  refuses
    (Transaction.set_updatedAt now1
       (Transaction_new id transactionId n type A B reference description
          status linked now1)) = None ->
  exists tx db1 tx' db2,
    Transaction_create refuses id transactionId n type A B reference
      description status linked now1 db = Return (tx, db1)
    /\ Transaction.status tx = "pending"
    /\ approve now2 tx approverId db1 = Ok (tx', db2)
    /\ Transaction.status tx' = "approved"
    /\ Transaction.approvedBy tx' = Some approverId
    /\ Transaction_findById db2 id = Some tx'
    /\ accounts db2 = accounts db
    /\ storedBalance db2 (Transaction.accountId A)
       = storedBalance db (Transaction.accountId A)
    /\ storedBalance db2 (Transaction.accountId B)
       = storedBalance db (Transaction.accountId B).
Proof.
  intros _ Hst Hvalid Hdriver.
  eexists _, _.
  destruct (approve_any_status now2
              (Transaction.set_updatedAt now1
                 (Transaction_new id transactionId n type A B reference
                    description status linked now1))
              approverId
              (Transaction_save
                 (Transaction.set_updatedAt now1
                    (Transaction_new id transactionId n type A B reference
                       description status linked now1)) db))
    as [tx' [db2 [Ha [Hs [Hb [_ [Hf Hacc]]]]]]].
  exists tx', db2.
  split.
  { unfold Transaction_create, Transaction_try_save.
    rewrite Hvalid, Hdriver. reflexivity. }
  split; [destruct Hst as [-> | ->]; reflexivity|].
  split; [exact Ha|].
  split; [exact Hs|].
  split; [exact Hb|].
  split; [exact Hf|].
  simpl in Hacc.
  split; [exact Hacc|].
  split; now apply storedBalance_accounts.
Qed.

Lemma create_then_approve_keeps_balances_witness :
  exists tx db1 tx' db2,
    Transaction_create (fun _ => None) "t1" "TX-1" 250 "debit"
      Sample.debit_cash Sample.credit_sales (Some Sample.by_employee)
      "cash sale" None None 10 Sample.db0
    = Return (tx, db1)
    /\ approve 20 tx "m1" db1 = Ok (tx', db2)
    /\ Transaction.status tx' = "approved"
    /\ storedBalance db2 "a1" = storedBalance Sample.db0 "a1"
    /\ storedBalance db2 "r1" = storedBalance Sample.db0 "r1".
Proof.
  destruct (create_then_approve_keeps_balances (fun _ => None) 10 20
              Sample.db0 "t1" "TX-1" "debit" "cash sale" 250
              Sample.debit_cash Sample.credit_sales
              (Some Sample.by_employee) None None "m1")
    as [tx [db1 [tx' [db2 [H1 [_ [H2 [H3 [_ [_ [_ [H4 H5]]]]]]]]]]]].
  - lia.
  - left; reflexivity.
  - vm_compute; reflexivity.
  - reflexivity.
  - exists tx, db1, tx', db2. repeat split; assumption.
Defined.

(** C1 as stated fails: the cash sale of 250 on behalf of employee
    [emp123] (debit the asset account [a1], credit the revenue account
    [r1]) passes the validators, is created and approved, and neither
    stored balance has moved by the signed effect of its leg. *)
Lemma approve_applies_no_posting :
  Transaction_valid
    (Transaction_new "t1" "TX-1" 250 "debit" Sample.debit_cash
       Sample.credit_sales (Some Sample.by_employee) "cash sale" None None
       10) = true
  /\ exists tx db1 tx' db2,
    Transaction_create (fun _ => None) "t1" "TX-1" 250 "debit"
      Sample.debit_cash Sample.credit_sales (Some Sample.by_employee)
      "cash sale" None None 10 Sample.db0
    = Return (tx, db1)
    /\ approve 20 tx "m1" db1 = Ok (tx', db2)
    /\ Transaction.status tx' = "approved"
    /\ storedBalance Sample.db0 "a1" = Some 100
    /\ storedBalance db2 "a1" = Some 100
    /\ storedBalance db2 "a1" <> Some (100 + signedEffect Asset Debit 250)
    /\ storedBalance Sample.db0 "r1" = Some 0
    /\ storedBalance db2 "r1" = Some 0
    /\ storedBalance db2 "r1" <> Some (0 + signedEffect Revenue Credit 250).
Proof.
  split; [vm_compute; reflexivity|].
  eexists _, _, _, _.
  split; [vm_compute; reflexivity|]. split; [reflexivity|].
  repeat split; vm_compute; congruence.
Qed.

(** C2, as the code has it.  [approve] does not look at the status: on a
    transaction of the collection that is already approved or already
    rejected the call returns normally, stores status approved and
    overwrites the approver with the new one; the account balances are
    what they were. *)
Theorem approve_decided_overwrites (now : Z) (this : Transaction.t)
    (approverId : string) (db : Db) :
  Transaction_valid this = true ->
  Transaction.status this = "approved"
  \/ Transaction.status this = "rejected" ->
  exists this' db',
    approve now this approverId db = Ok (this', db')
    /\ Transaction_valid this' = true
    /\ Transaction.status this' = "approved"
    /\ Transaction.approvedBy this' = Some approverId
    /\ Transaction_findById db' (Transaction._id this) = Some this'
    /\ accounts db' = accounts db
    /\ forall id, storedBalance db' id = storedBalance db id.
Proof.
  intros Hvalid _.
  destruct (approve_any_status now this approverId db)
    as [this' [db' [Ha [Hs [Hb [_ [Hf Hacc]]]]]]].
  exists this', db'. repeat split; try assumption.
  - unfold approve in Ha. injection Ha as <- _.
    now apply Transaction_valid_approved.
  - intros id. now apply storedBalance_accounts.
Qed.

Lemma approve_decided_overwrites_witness :
  exists this' db',
    approve 30 Sample.sale_rejected "m2"
      (Transaction_save Sample.sale_rejected Sample.db0) = Ok (this', db')
    /\ Transaction.status this' = "approved"
    /\ Transaction.approvedBy this' = Some "m2".
Proof.
  destruct (approve_decided_overwrites 30 Sample.sale_rejected "m2"
              (Transaction_save Sample.sale_rejected Sample.db0))
    as [this' [db' [H1 [_ [H2 [H3 _]]]]]].
  - vm_compute; reflexivity.
  - right; reflexivity.
  - exists this', db'. repeat split; assumption.
Defined.

(** C2 as stated fails: the rejected sale is a document that passes the
    validators and is in the collection; approving it raises no
    [ConflictError]; its stored status turns from rejected to approved and
    its approver from [m1] to [m2]. *)
Lemma approve_rejected_succeeds :
  let db := Transaction_save Sample.sale_rejected Sample.db0 in
  Transaction_valid Sample.sale_rejected = true
  /\ Transaction_findById db "t1" = Some Sample.sale_rejected
  /\ Transaction.status <$> Transaction_findById db "t1" = Some "rejected"
  /\ Transaction.approvedBy <$> Transaction_findById db "t1"
     = Some (Some "m1")
  /\ approve 30 Sample.sale_rejected "m2" db <> Throw ConflictError
  /\ exists this' db',
       approve 30 Sample.sale_rejected "m2" db = Ok (this', db')
       /\ Transaction_valid this' = true
       /\ Transaction.status <$> Transaction_findById db' "t1"
          = Some "approved"
       /\ Transaction.approvedBy <$> Transaction_findById db' "t1"
          = Some (Some "m2").
Proof.
  cbv zeta.
  split; [vm_compute; reflexivity|].
  split; [reflexivity|].
  split; [reflexivity|]. split; [reflexivity|]. split; [discriminate|].
  eexists _, _. split; [reflexivity|].
  split; [vm_compute; reflexivity|]. split; reflexivity.
Qed.

(** C7.  For every pending transaction, every approver and every reason:
    [reject] stores status rejected and the reason under
    [metadata.rejectionReason] (keeping the other metadata entries), and
    the stored balances of the debit account and of the credit account, as
    of every account, are exactly what they were. *)
Theorem reject_pending_keeps_balances (now : Z) (this : Transaction.t)
    (approverId reason : string) (db : Db) :
  Transaction.status this = "pending" ->
  exists this' db' meta,
    reject now this approverId reason db = Ok (this', db')
    /\ Transaction.status this' = "rejected"
    /\ Transaction.metadata this' = Some meta
    /\ meta !! "rejectionReason" = Some reason
    /\ (forall key, key <> "rejectionReason" ->
          meta !! key = default ∅ (Transaction.metadata this) !! key)
    /\ Transaction_findById db' (Transaction._id this) = Some this'
    /\ accounts db' = accounts db
    /\ storedBalance db'
         (Transaction.accountId (Transaction.debitAccount this))
       = storedBalance db
           (Transaction.accountId (Transaction.debitAccount this))
    /\ storedBalance db'
         (Transaction.accountId (Transaction.creditAccount this))
       = storedBalance db
           (Transaction.accountId (Transaction.creditAccount this)).
Proof.
  intros _. eexists _, _, _.
  split; [reflexivity|]. split; [reflexivity|]. split; [reflexivity|].
  split; [apply lookup_insert_eq|].
  split.
  { intros key Hkey. simpl. unfold spread_rejectionReason.
    now rewrite lookup_insert_ne. }
  split.
  { apply (findById_after_save
             (Transaction.set_updatedAt now
                (Transaction.set_updatedAt now
                   (Transaction.set_metadata
                      (Some (spread_rejectionReason
                               (Transaction.metadata this) reason))
                      (Transaction.set_approvedBy (Some approverId)
                         (Transaction.set_status "rejected" this)))))). }
  repeat split.
Qed.

Lemma reject_pending_keeps_balances_witness :
  exists this' db' meta,
    reject 30 Sample.sale "m1" "no receipt"
      (Transaction_save Sample.sale Sample.db0) = Ok (this', db')
    /\ Transaction.status this' = "rejected"
    /\ Transaction.metadata this' = Some meta
    /\ meta !! "rejectionReason" = Some "no receipt"
    /\ storedBalance db' "a1" = Some 100
    /\ storedBalance db' "r1" = Some 0.
Proof.
  destruct (reject_pending_keeps_balances 30 Sample.sale "m1" "no receipt"
              (Transaction_save Sample.sale Sample.db0))
    as [this' [db' [meta [H1 [H2 [H3 [H4 [_ [_ [_ [H5 H6]]]]]]]]]]].
  - reflexivity.
  - exists this', db', meta. repeat split; assumption.
Defined.

(** ** [reconcileAccounts] *)

(** The inner loop adds the amount for the debit side and subtracts it for
    the credit side, whatever the type of the account: it computes the
    history balance of a debit-normal account. *)
Lemma reconcile_fold_debit_normal (accountId : string)
    (txs : list Transaction.t) (c : Z) :
  fold_left (reconcile_tx accountId) txs c
  = c + history_balance Asset accountId txs.
Proof.
  revert c. induction txs as [|tx txs IH]; intros c; simpl.
  - lia.
  - rewrite IH. unfold reconcile_tx.
    destruct (String.eqb _ accountId), (String.eqb _ accountId); lia.
Qed.

(** Transactions that do not touch the account contribute nothing. *)
Lemma history_balance_touching (k : AccountKind) (db : Db)
    (accountId : string) :
  history_balance k accountId (Transaction_find_touching db accountId)
  = history_balance k accountId (transactions db).
Proof.
  unfold Transaction_find_touching.
  induction (transactions db) as [|tx txs IH]; simpl; [reflexivity|].
  destruct (String.eqb (Transaction.accountId (Transaction.debitAccount tx))
              accountId) eqn:Ed,
           (String.eqb (Transaction.accountId (Transaction.creditAccount tx))
              accountId) eqn:Ec;
    simpl; rewrite ?Ed, ?Ec, IH; reflexivity.
Qed.

(** For a credit-normal account the history balance has the other sign. *)
Lemma history_balance_credit_normal (k : AccountKind) (accountId : string)
    (txs : list Transaction.t) :
  k = Liability \/ k = Equity \/ k = Revenue ->
  history_balance k accountId txs = - history_balance Asset accountId txs.
Proof.
  intros Hk. induction txs as [|tx txs IH]; simpl; [reflexivity|].
  rewrite IH.
  destruct Hk as [-> | [-> | ->]];
    destruct (String.eqb _ accountId), (String.eqb _ accountId);
    simpl; lia.
Qed.

(** What the report says about one known account. *)
Lemma reconcileAccounts_single (db : Db) (accountId : string)
    (account : Account.t) :
  Account_findById db accountId = Some account ->
  reconcileAccounts db [accountId]
  = let calculated := history_balance Asset accountId (transactions db) in
    let reconciled := Z.eqb (Account.balance account - calculated) 0 in
    Ok (Reconcile.mkReport
          [Reconcile.mkEntry accountId (Account.accountCode account)
             (Account.balance account) calculated
             (Account.balance account - calculated) reconciled]
          (reconciled && true)).
Proof.
  intros Hacc. unfold reconcileAccounts; simpl.
  unfold reconcile_account. rewrite Hacc.
  rewrite reconcile_fold_debit_normal, history_balance_touching.
  reflexivity.
Qed.

(** C4, where the code departs from it.  The loan account [l1] is a
    liability; the approved borrowing of 500 credits it, and posting that
    credit with [updateBalance] stores 500, which is also the sum of the
    signed effects of the history under the normal-balance rule.
    [reconcileAccounts] nevertheless computes -500, reports a difference
    of 1000 and [reconciled = false]. *)
Theorem reconcile_liability_misreported :
  let db1 := mkDb (accounts Sample.db0) [Sample.borrowing] in
  exists loan' db2,
    updateBalance 5 Sample.loan 500 "credit" db1 = Ok (loan', db2)
    /\ storedBalance db2 "l1" = Some 500
    /\ history_balance Liability "l1" (transactions db2) = 500
    /\ reconcileAccounts db2 ["l1"]
       = Ok (Reconcile.mkReport
               [Reconcile.mkEntry "l1" "2000" 500 (-500) 1000 false]
               false).
Proof.
  cbv zeta. eexists _, _.
  split; [reflexivity|].
  repeat split; vm_compute; reflexivity.
Qed.

(** ** [isManager] *)

Lemma strict_eq_str_spec (x : option string) (s : string) :
  strict_eq_str x s = true <-> x = Some s.
Proof.
  destruct x as [v|]; simpl.
  - rewrite String.eqb_eq. split; congruence.
  - split; discriminate.
Qed.

(** A missing principal or a missing employee is never a manager. *)
Lemma isManager_missing (user : option User.t)
    (employee : option Employee.t) :
  user = None \/ employee = None -> isManager user employee = false.
Proof. intros [-> | ->]; [reflexivity | now destruct user]. Qed.

(** C6.  For every approver principal and every originating employee,
    [isManager] answers true exactly when the approver holds the Admin
    role, or the employee has a manager reference and the approver's
    employee id equals it; every other principal is denied. *)
Theorem isManager_iff_admin_or_direct_manager (u : User.t)
    (e : Employee.t) :
  isManager (Some u) (Some e) = true
  <-> (User.designation u = Some ROLES.ADMIN
       \/ exists m, Employee.manager e = Some m
                    /\ User.employeeId u = Some (toString m)).
Proof.
  unfold isManager.
  destruct (strict_eq_str (User.designation u) "Admin") eqn:Ha.
  - apply strict_eq_str_spec in Ha. split; [now left | reflexivity].
  - assert (Hna : User.designation u <> Some ROLES.ADMIN).
    { intros H. apply strict_eq_str_spec in H.
      unfold ROLES.ADMIN in H. congruence. }
    destruct (Employee.manager e) as [m|] eqn:Hm.
    + destruct (strict_eq_str (User.employeeId u) (toString m)) eqn:He.
      * apply strict_eq_str_spec in He. split; [|reflexivity].
        intros _. right. now exists m.
      * split; [discriminate|].
        intros [H | [m' [Hm' He']]]; [contradiction|].
        injection Hm' as <-. apply strict_eq_str_spec in He'. congruence.
    + split; [discriminate|].
      intros [H | [m' [Hm' _]]]; [contradiction | discriminate].
Qed.

(** ** [isRoleHigher] *)

(** C8.  For roles [x] and [y] standing at positions [i] and [j] of the
    hierarchy [Vendor, Employee, BranchManager, Admin], [isRoleHigher x y]
    is true if and only if [i] is strictly greater than [j]. *)
Theorem isRoleHigher_iff_index (x y : string) (i j : nat) :
  ROLE_HIERARCHY !! i = Some x ->
  ROLE_HIERARCHY !! j = Some y ->
  (isRoleHigher x y = true <-> (j < i)%nat).
Proof.
  intros Hx Hy.
  destruct i as [|[|[|[|i]]]]; simpl in Hx; try discriminate;
    injection Hx as <-;
    destruct j as [|[|[|[|j]]]]; simpl in Hy; try discriminate;
    injection Hy as <-;
    vm_compute; split; intros H; try reflexivity; try discriminate;
    try lia.
Qed.

Lemma isRoleHigher_iff_index_witness :
  isRoleHigher "Admin" "Employee" = true <-> (1 < 3)%nat.
Proof.
  apply (isRoleHigher_iff_index "Admin" "Employee" 3 1); reflexivity.
Defined.

(** ** [aggregateByPeriod] *)

Section BucketSums.

Variable legacy : string -> option Z.

(** A numeric field of a bucket, summed over the buckets of an object. *)
Variable f : Bucket.t -> Z.

Local Abbreviation total := (sum_field f).

Lemma obj_get_set (o : JSObject) (key : string) (v : Bucket.t) :
  obj_get (obj_set o key v) key = Some v.
Proof.
  induction o as [|[k w] o IH]; simpl.
  - now rewrite String.eqb_refl.
  - destruct (String.eqb k key) eqn:E; simpl; now rewrite E.
Qed.

Lemma total_set_fresh (o : JSObject) (key : string) (v : Bucket.t) :
  obj_get o key = None ->
  total (Object_values (obj_set o key v)) = total (Object_values o) + f v.
Proof.
  induction o as [|[k w] o IH]; simpl; intros H.
  - lia.
  - destruct (String.eqb k key); [discriminate|].
    simpl. rewrite IH by assumption. lia.
Qed.

Lemma total_set_known (o : JSObject) (key : string) (b v : Bucket.t) :
  obj_get o key = Some b ->
  total (Object_values (obj_set o key v))
  = total (Object_values o) - f b + f v.
Proof.
  induction o as [|[k w] o IH]; simpl; intros H.
  - discriminate.
  - destruct (String.eqb k key).
    + injection H as ->. simpl. lia.
    + simpl. rewrite IH by assumption. lia.
Qed.

Lemma total_insert_bucket (x : Bucket.t) (l : list Bucket.t) :
  total (insert_bucket legacy x l) = f x + total l.
Proof.
  induction l as [|y l IH]; simpl; [reflexivity|].
  destruct (compare_buckets legacy y x <=? 0); simpl; [rewrite IH|]; lia.
Qed.

Lemma total_sort_from (l acc : list Bucket.t) :
  total (fold_left (fun a x => insert_bucket legacy x a) l acc)
  = total acc + total l.
Proof.
  revert acc. induction l as [|x l IH]; intros acc; simpl.
  - lia.
  - rewrite IH, total_insert_bucket. lia.
Qed.

Lemma total_sort_buckets (l : list Bucket.t) :
  total (sort_buckets legacy l) = total l.
Proof. unfold sort_buckets. rewrite total_sort_from. reflexivity. Qed.

(** One pass of the [forEach] body, when the field is zero in a fresh
    bucket and grows by [delta tx] in the bucket of the transaction. *)
Variable delta : Transaction.t -> Z.
Hypothesis f_fresh : forall key, f (Bucket.mk key 0 0 []) = 0.
Hypothesis f_grows : forall b tx,
  f (Bucket.mk (Bucket.date b)
       (Bucket.totalAmount b + Transaction.amount tx)
       (Bucket.count b + 1) (Bucket.transactions b ++ [tx]))
  = f b + delta tx.

Lemma total_aggregate_step (tz : Z) (period : string) (o : JSObject)
    (tx : Transaction.t) :
  total (Object_values (aggregate_step tz period o tx))
  = total (Object_values o) + delta tx.
Proof.
  unfold aggregate_step.
  set (key := period_key tz period (Transaction.createdAt tx)).
  destruct (obj_get o key) as [b|] eqn:Hget.
  - rewrite Hget.
    rewrite (total_set_known o key b) by assumption.
    rewrite f_grows. lia.
  - rewrite obj_get_set.
    rewrite (total_set_known _ key (Bucket.mk key 0 0 []))
      by apply obj_get_set.
    rewrite total_set_fresh by assumption.
    rewrite f_grows, f_fresh. simpl. lia.
Qed.

Lemma total_aggregate_fold (tz : Z) (period : string)
    (txs : list Transaction.t) (o : JSObject) :
  total (Object_values (fold_left (aggregate_step tz period) txs o))
  = total (Object_values o)
    + fold_right (fun tx acc => delta tx + acc) 0 txs.
Proof.
  revert o. induction txs as [|tx txs IH]; intros o; simpl.
  - lia.
  - rewrite IH, total_aggregate_step. lia.
Qed.

Lemma total_aggregateByPeriod (tz : Z) (period : string)
    (txs : list Transaction.t) :
  total (aggregateByPeriod tz legacy txs period)
  = fold_right (fun tx acc => delta tx + acc) 0 txs.
Proof.
  unfold aggregateByPeriod.
  rewrite total_sort_buckets, total_aggregate_fold. reflexivity.
Qed.

End BucketSums.

Lemma sum_ones (txs : list Transaction.t) :
  fold_right (fun _ acc => 1 + acc) 0 txs = Z.of_nat (length txs).
Proof. induction txs as [|tx txs IH]; simpl length; simpl fold_right; lia. Qed.

(** C9, as the code has it.  For every list of transactions and every
    period (["day"], ["week"], ["month"], or any other string, which is
    read as ["day"]), the [count] fields of the buckets
    [aggregateByPeriod] returns add up to the number of transactions; and
    when the amounts are integers whose absolute values add up to at most
    [2^53], so that no addition rounds, the [totalAmount] fields add up to
    the sum of the transaction amounts. *)
Theorem aggregateByPeriod_partitions (tz : Z)
    (legacy : string -> option Z)
    (transactions : list Transaction.t) (period : string) :
  sum_count (aggregateByPeriod tz legacy transactions period)
  = Z.of_nat (length transactions)
  /\ (exact_amounts transactions ->
      sum_totalAmount (aggregateByPeriod tz legacy transactions period)
      = sum_amount transactions).
Proof.
  split.
  - unfold sum_count.
    rewrite (total_aggregateByPeriod legacy Bucket.count (fun _ => 1))
      by reflexivity.
    apply sum_ones.
  - intros _. unfold sum_totalAmount, sum_amount.
    now rewrite (total_aggregateByPeriod legacy Bucket.totalAmount
                   Transaction.amount) by reflexivity.
Qed.

Lemma aggregateByPeriod_partitions_witness :
  sum_count
    (aggregateByPeriod 0 (fun _ => None)
       [Sample.sale; Sample.purchase; Sample.borrowing] "day") = 3
  /\ sum_totalAmount
       (aggregateByPeriod 0 (fun _ => None)
          [Sample.sale; Sample.purchase; Sample.borrowing] "day") = 755.
Proof.
  destruct (aggregateByPeriod_partitions 0 (fun _ => None)
              [Sample.sale; Sample.purchase; Sample.borrowing] "day")
    as [Hc Ht].
  split; [exact Hc|].
  apply Ht. unfold exact_amounts. vm_compute. discriminate.
Defined.

(** C9 as stated fails for amounts with a fraction.  Of three
    transactions of 10.10, 20.20 and 30.30, the first made on one day and
    the other two on the next, the two buckets hold 10.1 and 50.5; the
    totals add up to 60.6, the amounts to 60.599999999999994. *)
Lemma aggregateByPeriod_total_rounds :
  let transactions :=
    [Binary64.mkTransaction 1700000000000 0x1.4333333333333p+3%float;
     Binary64.mkTransaction 1700090000000 0x1.4333333333333p+4%float;
     Binary64.mkTransaction 1700090000001 0x1.e4ccccccccccdp+4%float] in
  let buckets :=
    Binary64.aggregateByPeriod 0 (fun _ => None) transactions "day" in
  map Binary64.date buckets = ["2023-11-14"; "2023-11-15"]
  /\ map Binary64.totalAmount buckets
     = [0x1.4333333333333p+3%float; 0x1.94p+5%float]
  /\ Binary64.sum_count buckets = 3
  /\ Binary64.sum_totalAmount buckets = 0x1.e4ccccccccccdp+5%float
  /\ Binary64.sum_amount transactions = 0x1.e4cccccccccccp+5%float
  /\ PrimFloat.ltb (Binary64.sum_amount transactions)
       (Binary64.sum_totalAmount buckets) = true.
Proof.
  cbv zeta. repeat split; vm_compute; reflexivity.
Qed.

(** Two transactions of 50 and 75 made on the same calendar day fall into
    one ["day"] bucket with count 2 and total 125. *)
Example aggregateByPeriod_same_day :
  let tx1 :=
    Transaction.mk "t1" "TX-1" 50 "debit" Sample.debit_cash
      Sample.credit_sales (Some Sample.by_employee) "" "pending" None None
      None 1700000000123 1700000000123 in
  let tx2 :=
    Transaction.mk "t2" "TX-2" 75 "debit" Sample.debit_cash
      Sample.credit_sales (Some Sample.by_employee) "" "pending" None None
      None 1700000900000 1700000900000 in
  aggregateByPeriod 0 (fun _ => None) [tx1; tx2] "day"
  = [Bucket.mk "2023-11-14" 125 2 [tx1; tx2]].
Proof. vm_compute. reflexivity. Qed.

(** * Further properties: access control *)

(** ** Role hierarchy *)

Lemma role_cases (x : string) :
  x = "Vendor" \/ x = "Employee" \/ x = "BranchManager" \/ x = "Admin"
  \/ (indexOf ROLE_HIERARCHY x = -1 /\ ~ In x ROLE_HIERARCHY).
Proof.
  unfold indexOf, ROLE_HIERARCHY, ROLES.VENDOR, ROLES.EMPLOYEE,
    ROLES.BRANCH_MANAGER, ROLES.ADMIN; cbn [indexOf_from In].
  destruct (String.eqb_spec "Vendor" x) as [->|H1]; [tauto|].
  destruct (String.eqb_spec "Employee" x) as [->|H2]; [tauto|].
  destruct (String.eqb_spec "BranchManager" x) as [->|H3]; [tauto|].
  destruct (String.eqb_spec "Admin" x) as [->|H4]; [tauto|].
  do 4 right. split; [reflexivity | tauto].
Qed.

Lemma isRoleHigher_true (x y : string) :
  isRoleHigher x y = true
  <-> indexOf ROLE_HIERARCHY x <> -1
      /\ indexOf ROLE_HIERARCHY y <> -1
      /\ indexOf ROLE_HIERARCHY y < indexOf ROLE_HIERARCHY x.
Proof.
  unfold isRoleHigher.
  destruct (Z.eqb_spec (indexOf ROLE_HIERARCHY x) (-1)) as [Hx|Hx];
    destruct (Z.eqb_spec (indexOf ROLE_HIERARCHY y) (-1)) as [Hy|Hy];
    simpl; try (split; [discriminate | tauto]).
  rewrite Z.gtb_lt. tauto.
Qed.

(** X1.  [isRoleHigher] is a strict order on all strings: it never holds
    both ways round, and it is transitive. *)
Theorem isRoleHigher_strict_order (x y z : string) :
  isRoleHigher x y = true ->
  isRoleHigher y x = false
  /\ isRoleHigher x x = false
  /\ (isRoleHigher y z = true -> isRoleHigher x z = true).
Proof.
  intros Hxy. apply isRoleHigher_true in Hxy. split; [|split].
  - destruct (isRoleHigher y x) eqn:E; [|reflexivity].
    apply isRoleHigher_true in E. lia.
  - destruct (isRoleHigher x x) eqn:E; [|reflexivity].
    apply isRoleHigher_true in E. lia.
  - intros Hyz. apply isRoleHigher_true in Hyz.
    apply isRoleHigher_true. lia.
Qed.

Lemma isRoleHigher_strict_order_witness :
  isRoleHigher "Employee" "Admin" = false
  /\ isRoleHigher "Admin" "Admin" = false
  /\ (isRoleHigher "Employee" "Vendor" = true
      -> isRoleHigher "Admin" "Vendor" = true).
Proof.
  apply (isRoleHigher_strict_order "Admin" "Employee" "Vendor").
  reflexivity.
Defined.

(** X2.  [isRoleHigher] holds only between two roles of the hierarchy: a
    string that is not one of the four role names is neither higher nor
    lower than anything. *)
Theorem isRoleHigher_known_roles (x y : string) :
  isRoleHigher x y = true ->
  In x ROLE_HIERARCHY /\ In y ROLE_HIERARCHY.
Proof.
  intros H. apply isRoleHigher_true in H as [Hx [Hy _]].
  split.
  - destruct (role_cases x) as [-> | [-> | [-> | [-> | [E _]]]]];
      [simpl; tauto .. | contradiction].
  - destruct (role_cases y) as [-> | [-> | [-> | [-> | [E _]]]]];
      [simpl; tauto .. | contradiction].
Qed.

Lemma isRoleHigher_known_roles_witness :
  In "BranchManager" ROLE_HIERARCHY /\ In "Vendor" ROLE_HIERARCHY.
Proof.
  apply (isRoleHigher_known_roles "BranchManager" "Vendor"). reflexivity.
Defined.

(** X3.  [getRolesAtOrBelow x] lists exactly the roles of the hierarchy
    that are not higher than [x], when [x] is itself a role of the
    hierarchy; for any other string it is empty. *)
Theorem getRolesAtOrBelow_spec (x y : string) :
  In y (getRolesAtOrBelow x)
  <-> In x ROLE_HIERARCHY /\ In y ROLE_HIERARCHY
      /\ isRoleHigher y x = false.
Proof.
  split.
  - intros H.
    destruct (role_cases x) as [-> | [-> | [-> | [-> | [E _]]]]].
    1-4: (split; [simpl; tauto|]);
         vm_compute in H;
         repeat (destruct H as [<- | H]; [split; [simpl; tauto | reflexivity]|]);
         destruct H.
    unfold getRolesAtOrBelow in H. rewrite E in H. destruct H.
  - intros [Hx [Hy Hh]].
    destruct (role_cases x) as [-> | [-> | [-> | [-> | [_ E]]]]];
      [| | | | contradiction];
      (destruct (role_cases y) as [-> | [-> | [-> | [-> | [_ E]]]]];
       [| | | | contradiction]);
      vm_compute in Hh; try discriminate; vm_compute; tauto.
Qed.

(** ** Permission matrix *)

Lemma matrix_cases (role : string) :
  role = "Admin" \/ role = "BranchManager" \/ role = "Employee"
  \/ role = "Vendor" \/ own_property PERMISSION_MATRIX role = None.
Proof.
  unfold PERMISSION_MATRIX, ROLES.VENDOR, ROLES.EMPLOYEE,
    ROLES.BRANCH_MANAGER, ROLES.ADMIN; cbn [own_property].
  destruct (String.eqb_spec "Admin" role) as [->|H1]; [tauto|].
  destruct (String.eqb_spec "BranchManager" role) as [->|H2]; [tauto|].
  destruct (String.eqb_spec "Employee" role) as [->|H3]; [tauto|].
  destruct (String.eqb_spec "Vendor" role) as [->|H4]; [tauto|].
  now do 4 right.
Qed.

Lemma own_property_In {A : Type} (o : list (string * A)) (key : string)
    (v : A) :
  own_property o key = Some v -> In (key, v) o.
Proof.
  induction o as [|[k w] o IH]; simpl; [discriminate|].
  destruct (String.eqb_spec k key) as [->|Hne].
  - intros H; injection H as ->. now left.
  - intros H. right. now apply IH.
Qed.

Lemma In_matrix_own (role : string) (perms : list string) :
  In (role, perms) PERMISSION_MATRIX ->
  own_property PERMISSION_MATRIX role = Some perms.
Proof.
  unfold PERMISSION_MATRIX. simpl.
  intros [H | [H | [H | [H | []]]]]; injection H as <- <-; reflexivity.
Qed.

Lemma hasPermission_true (role permission : string) :
  hasPermission role permission = Return true
  <-> exists perms, In (role, perms) PERMISSION_MATRIX /\ In permission perms.
Proof.
  unfold hasPermission, get_property. split.
  - destruct (own_property PERMISSION_MATRIX role) as [perms|] eqn:E.
    + intros H. exists perms. split; [now apply own_property_In|].
      apply includes_In. injection H as H.
      now rewrite orb_false_r in H.
    + destruct (includes Object_prototype_names role); discriminate.
  - intros [perms [Hrow Hin]]. rewrite (In_matrix_own _ _ Hrow).
    apply includes_In in Hin. now rewrite Hin.
Qed.

Lemma hasPermission_raise (role permission : string) (x : exn) :
  hasPermission role permission = Raise x
  <-> x = TypeError /\ In role Object_prototype_names.
Proof.
  unfold hasPermission, get_property. split.
  - destruct (matrix_cases role) as [-> | [-> | [-> | [-> | E]]]];
      try discriminate.
    rewrite E. destruct (includes Object_prototype_names role) eqn:Ei;
      [|discriminate].
    intros H; injection H as <-. split; [reflexivity|].
    now apply includes_In.
  - intros [-> Hin].
    assert (E : own_property PERMISSION_MATRIX role = None).
    { simpl in Hin.
      repeat (destruct Hin as [<- | Hin]; [reflexivity|]). destruct Hin. }
    rewrite E. apply includes_In in Hin. now rewrite Hin.
Qed.

(** X4.  Admin holds every permission that any role holds. *)
Theorem hasPermission_admin_superset (role permission : string) :
  hasPermission role permission = Return true ->
  hasPermission ROLES.ADMIN permission = Return true.
Proof.
  intros H. apply hasPermission_true in H as [perms [Hrow Hin]].
  unfold PERMISSION_MATRIX in Hrow. simpl in Hrow.
  destruct Hrow as [H | [H | [H | [H | []]]]]; injection H as <- <-;
    simpl in Hin;
    repeat (destruct Hin as [<- | Hin]; [reflexivity|]); destruct Hin.
Qed.

Lemma hasPermission_admin_superset_witness :
  hasPermission ROLES.ADMIN "update_transaction" = Return true.
Proof.
  apply (hasPermission_admin_superset "Employee" "update_transaction").
  reflexivity.
Defined.

(** X5.  The permissions to approve and to reject a transaction are held
    by Admin and BranchManager and by no other role string. *)
Theorem hasPermission_decide_transaction (role : string) :
  (hasPermission role PERMISSIONS.APPROVE_TRANSACTION = Return true
   <-> role = ROLES.ADMIN \/ role = ROLES.BRANCH_MANAGER)
  /\ (hasPermission role PERMISSIONS.REJECT_TRANSACTION = Return true
      <-> role = ROLES.ADMIN \/ role = ROLES.BRANCH_MANAGER).
Proof.
  split; split.
  1,3: destruct (matrix_cases role) as [-> | [-> | [-> | [-> | E]]]];
       [now left | now right | discriminate | discriminate |];
       unfold hasPermission, get_property; rewrite E;
       destruct (includes Object_prototype_names role); discriminate.
  all: intros [-> | ->]; reflexivity.
Qed.

(** ** [isAuthorized] and [isOwner] *)

Lemma truthy_str_Some (x : option string) :
  truthy_str x = true <-> exists s, x = Some s /\ s <> "".
Proof.
  destruct x as [s|]; simpl.
  - rewrite negb_true_iff, String.eqb_neq. split.
    + intros H. now exists s.
    + intros [s' [E H]]. now injection E as ->.
  - split; [discriminate | intros [s [E _]]; discriminate].
Qed.

Lemma prototype_name_nonempty (role : string) :
  In role Object_prototype_names -> role <> "".
Proof.
  simpl. intros H.
  repeat (destruct H as [<- | H]; [discriminate|]). destruct H.
Qed.

(** X6.  [isAuthorized] answers true exactly when the principal is present,
    its designation is one of the four roles of the matrix, and the
    permission is listed for that role. *)
Theorem isAuthorized_true_iff (user : option User.t) (permission : string) :
  isAuthorized user permission = Return true
  <-> exists u role perms,
        user = Some u
        /\ User.designation u = Some role
        /\ In (role, perms) PERMISSION_MATRIX
        /\ In permission perms.
Proof.
  unfold isAuthorized. split.
  - destruct user as [u|]; [|discriminate].
    destruct (truthy_str (User.designation u)) eqn:Et; [|discriminate].
    apply truthy_str_Some in Et as [role [Ed _]]. rewrite Ed. simpl negb.
    cbv iota. simpl default.
    destruct (hasPermission role permission) as [[|]|x] eqn:Eh;
      try discriminate.
    intros _. apply hasPermission_true in Eh as [perms [Hrow Hin]].
    now exists u, role, perms.
  - intros [u [role [perms [-> [Ed [Hrow Hin]]]]]].
    assert (Hne : role <> "").
    { intros ->. unfold PERMISSION_MATRIX in Hrow. simpl in Hrow.
      destruct Hrow as [H | [H | [H | [H | []]]]]; discriminate. }
    rewrite Ed. simpl.
    apply String.eqb_neq in Hne. rewrite Hne. simpl.
    assert (Eh : hasPermission role permission = Return true).
    { apply hasPermission_true. now exists perms. }
    now rewrite Eh.
Qed.

(** X7.  [isAuthorized] throws exactly when the designation is the name of
    a member of [Object.prototype] (["constructor"], ["toString"], ...),
    and then it throws a [TypeError], whatever the permission; for every
    other principal it returns a boolean. *)
Theorem isAuthorized_throws_iff (user : option User.t) (permission : string)
    (x : exn) :
  isAuthorized user permission = Raise x
  <-> x = TypeError
      /\ exists u role,
           user = Some u
           /\ User.designation u = Some role
           /\ In role Object_prototype_names.
Proof.
  unfold isAuthorized. split.
  - destruct user as [u|]; [|discriminate].
    destruct (truthy_str (User.designation u)) eqn:Et; [|discriminate].
    apply truthy_str_Some in Et as [role [Ed _]]. rewrite Ed. simpl negb.
    cbv iota. simpl default.
    destruct (hasPermission role permission) as [[|]|y] eqn:Eh;
      try discriminate.
    intros H; injection H as <-.
    apply hasPermission_raise in Eh as [-> Hin].
    split; [reflexivity|]. now exists u, role.
  - intros [-> [u [role [-> [Ed Hin]]]]].
    pose proof (prototype_name_nonempty role Hin) as Hne.
    rewrite Ed. simpl.
    apply String.eqb_neq in Hne. rewrite Hne. simpl.
    assert (Eh : hasPermission role permission = Raise TypeError).
    { now apply hasPermission_raise. }
    now rewrite Eh.
Qed.

Lemma strict_eq_opt_Some (x y : option string) (s : string) :
  x = Some s -> (strict_eq_opt x y = true <-> y = Some s).
Proof.
  intros ->. destruct y as [b|]; simpl.
  - rewrite String.eqb_eq. split; congruence.
  - split; discriminate.
Qed.

(** The guard [r.f && r.f === u.f] on one identifying property. *)
Lemma owner_guard (x y : option string) :
  truthy_str x && strict_eq_opt x y = true
  <-> exists s, s <> "" /\ x = Some s /\ y = Some s.
Proof.
  rewrite andb_true_iff, truthy_str_Some. split.
  - intros [[s [-> Hne]] He]. exists s.
    apply (strict_eq_opt_Some (Some s) y s eq_refl) in He. tauto.
  - intros [s [Hne [-> ->]]]. split; [now exists s|].
    simpl. apply String.eqb_refl.
Qed.

(** X8.  [isOwner] answers true exactly when the resource carries a
    non-empty [userId] equal to the principal's, or a non-empty
    [employeeId] equal to the principal's; a resource without either
    property has no owner, not even a principal that lacks them too. *)
Theorem isOwner_iff (user : option User.t) (resource : option Resource.t) :
  isOwner user resource = true
  <-> exists u r s,
        user = Some u /\ resource = Some r /\ s <> ""
        /\ ((Resource.userId r = Some s /\ User.userId u = Some s)
            \/ (Resource.employeeId r = Some s
                /\ User.employeeId u = Some s)).
Proof.
  unfold isOwner. split.
  - destruct user as [u|]; [|discriminate].
    destruct resource as [r|]; [|discriminate].
    destruct (truthy_str (Resource.userId r)
              && strict_eq_opt (Resource.userId r) (User.userId u)) eqn:E1.
    + intros _. apply owner_guard in E1 as [s [Hne [Hr Hu]]].
      exists u, r, s. tauto.
    + destruct (truthy_str (Resource.employeeId r)
                && strict_eq_opt (Resource.employeeId r)
                     (User.employeeId u)) eqn:E2; [|discriminate].
      intros _. apply owner_guard in E2 as [s [Hne [Hr Hu]]].
      exists u, r, s. tauto.
  - intros [u [r [s [-> [-> [Hne [[Hr Hu] | [Hr Hu]]]]]]]].
    + assert (E : truthy_str (Resource.userId r)
                  && strict_eq_opt (Resource.userId r) (User.userId u)
                  = true) by (apply owner_guard; now exists s).
      now rewrite E.
    + assert (E : truthy_str (Resource.employeeId r)
                  && strict_eq_opt (Resource.employeeId r)
                       (User.employeeId u) = true)
        by (apply owner_guard; now exists s).
      rewrite E.
      destruct (truthy_str (Resource.userId r)
                && strict_eq_opt (Resource.userId r) (User.userId u));
        reflexivity.
Qed.

(** ** Resolver wrappers *)

(** The context [buildAuthContext] returns carries a user exactly when it
    is flagged authenticated, and that user has no [isAuthenticated]
    property of its own. *)
Lemma buildAuthContext_shape (jwt_verify : string -> jwt_verdict)
    (headers : option Headers.t) :
  buildAuthContext jwt_verify headers = Context.mk None false
  \/ exists decoded,
       buildAuthContext jwt_verify headers
       = Context.mk (Some (user_of_payload decoded)) true.
Proof.
  unfold buildAuthContext.
  destruct (negb (truthy_str _)); [now left|].
  destruct (verifyAccessToken _ _) as [decoded|x]; [right | now left].
  now exists decoded.
Qed.

(** X9.  A context built by [buildAuthContext] never passes
    [withPermission]: the flag is set on the context, the wrapper reads it
    on the user, so whatever the headers, the token, the permission and
    the resolver, the call throws [AuthorizationError] "Authentication
    required". *)
Theorem withPermission_rejects_built_context (A : Type)
    (resolver : option string -> Context.t -> outcome A)
    (jwt_verify : string -> jwt_verdict) (headers : option Headers.t)
    (permission : string) (requireOwnership : bool) (id : option string) :
  withPermission A resolver permission requireOwnership id
    (buildAuthContext jwt_verify headers)
  = Raise (CustomError AuthorizationError "Authentication required").
Proof.
  destruct (buildAuthContext_shape jwt_verify headers) as [-> | [d ->]];
    reflexivity.
Qed.

(** X10.  [withPermission] hands over to the resolver exactly when the
    context user is flagged authenticated and [isAuthorized] grants the
    permission; then its outcome is the resolver's, returned or thrown.
    Otherwise the outcome is a throw that is the same for every
    resolver. *)
Theorem withPermission_gate (A : Type) (permission : string)
    (requireOwnership : bool) (id : option string) (context : Context.t) :
  let passes :=
    exists p, Context.user context = Some p
              /\ Principal.isAuthenticated p = true
              /\ isAuthorized (Some (Principal.user p)) permission
                 = Return true in
  (passes ->
   forall resolver,
     withPermission A resolver permission requireOwnership id context
     = resolver id context)
  /\ (~ passes ->
      exists x,
        forall resolver,
          withPermission A resolver permission requireOwnership id context
          = Raise x).
Proof.
  cbv zeta. unfold withPermission. split.
  - intros [p [-> [Ha Hz]]] resolver. rewrite Ha, Hz. cbn [negb].
    now destruct (resolver id context).
  - intros Hno.
    destruct (Context.user context) as [p|]; [|eexists; reflexivity].
    destruct (Principal.isAuthenticated p) eqn:Ha;
      [|eexists; reflexivity].
    cbn [negb].
    destruct (isAuthorized (Some (Principal.user p)) permission)
      as [[|]|x] eqn:Hz.
    + exfalso. apply Hno. now exists p.
    + eexists; intros resolver; reflexivity.
    + eexists; intros resolver; reflexivity.
Qed.

(** The principal may decide for the employee: Admin, or direct manager. *)
Lemma isManager_true_cases (u : User.t) (e : Employee.t) :
  isManager (Some u) (Some e) = true
  <-> strict_eq_str (User.designation u) "Admin" = true
      \/ exists m, Employee.manager e = Some m
                   /\ strict_eq_str (User.employeeId u) (toString m) = true.
Proof.
  unfold isManager.
  destruct (strict_eq_str (User.designation u) "Admin"); [tauto|].
  destruct (Employee.manager e) as [m|].
  - destruct (strict_eq_str (User.employeeId u) (toString m)) eqn:E.
    + split; [|reflexivity]. intros _. right. now exists m.
    + split; [discriminate|].
      intros [H | [m' [Hm He]]]; [discriminate|].
      injection Hm as <-. congruence.
  - split; [discriminate|].
    intros [H | [m' [Hm _]]]; discriminate.
Qed.

(** X11.  [withManagementCheck]: once the resource is found, an Admin
    principal always reaches the resolver, and so does the employee's
    direct manager; a resource that is not found stops everyone, Admin
    included, with a plain [Error] "Resource not found"; any other
    principal, or a context without user, gets [AuthorizationError]. *)
Theorem withManagementCheck_outcomes (A : Type)
    (resolver : option string -> Context.t -> outcome A)
    (getResource : option string -> outcome (option Employee.t))
    (id : option string) (context : Context.t) :
  (getResource id = Return None ->
   withManagementCheck A resolver getResource id context
   = Raise (PlainError "Resource not found"))
  /\ (forall e,
        getResource id = Return (Some e) ->
        (forall p,
           Context.user context = Some p ->
           User.designation (Principal.user p) = Some ROLES.ADMIN
           \/ (exists m, Employee.manager e = Some m
                         /\ User.employeeId (Principal.user p)
                            = Some (toString m)) ->
           withManagementCheck A resolver getResource id context
           = resolver id context)
        /\ (isManager (Principal.user <$> Context.user context) (Some e)
            = false ->
            withManagementCheck A resolver getResource id context
            = Raise (CustomError AuthorizationError
                       "You do not manage this resource"))).
Proof.
  unfold withManagementCheck. split.
  - intros ->. reflexivity.
  - intros e ->. split.
    + intros p -> Hok.
      change (Principal.user <$> Some p) with (Some (Principal.user p)).
      cbv zeta.
      assert (E : isManager (Some (Principal.user p)) (Some e) = true).
      { apply isManager_true_cases.
        destruct Hok as [H | [m [Hm He]]].
        - left. now apply strict_eq_str_spec.
        - right. exists m. split; [assumption|].
          now apply strict_eq_str_spec. }
      now rewrite E.
    + cbv zeta. intros ->. reflexivity.
Qed.

Lemma withPermission_gate_witness :
  withPermission string Fixture.echo PERMISSIONS.APPROVE_TRANSACTION false
    (Some "t1") Fixture.manager_context
  = Return "t1".
Proof.
  refine (proj1 (withPermission_gate string PERMISSIONS.APPROVE_TRANSACTION
                   false (Some "t1") Fixture.manager_context) _
            Fixture.echo).
  exists (Principal.mk Fixture.manager true).
  repeat split; reflexivity.
Defined.

Lemma withManagementCheck_outcomes_witness :
  withManagementCheck string Fixture.echo Fixture.find_employee
    (Some "emp123") Fixture.manager_context
  = Return "emp123".
Proof.
  refine (proj1 (proj2 (withManagementCheck_outcomes string Fixture.echo
                          Fixture.find_employee (Some "emp123")
                          Fixture.manager_context)
                   Sample.employee _)
            (Principal.mk Fixture.manager true) _ _).
  - reflexivity.
  - reflexivity.
  - right. exists (mkObjectId "empManager"). split; reflexivity.
Defined.

(** ** Bearer tokens *)

Lemma split_space_cons (c : ascii) (s : string) :
  split_space (String c s)
  = if Ascii.eqb c " "%char then EmptyString :: split_space s
    else match split_space s with
         | [] => [String c EmptyString]
         | part :: parts => String c part :: parts
         end.
Proof. reflexivity. Qed.

Lemma split_space_nonempty (s : string) : split_space s <> [].
Proof.
  destruct s as [|c s]; [discriminate|].
  rewrite split_space_cons.
  destruct (Ascii.eqb c " "); [discriminate|].
  destruct (split_space s); discriminate.
Qed.

Lemma split_space_no_space (s : string) :
  has_space s = false -> split_space s = [s].
Proof.
  induction s as [|c s IH]; [reflexivity|].
  simpl has_space. rewrite orb_false_iff. intros [Hc Hs].
  rewrite split_space_cons, Hc, (IH Hs). reflexivity.
Qed.

Lemma split_space_one (s b : string) :
  split_space s = [b] -> s = b /\ has_space b = false.
Proof.
  revert b. induction s as [|c s IH]; intros b.
  - intros H; injection H as <-. now split.
  - rewrite split_space_cons.
    destruct (Ascii.eqb c " ") eqn:Ec.
    + intros H; injection H as _ H. now apply split_space_nonempty in H.
    + destruct (split_space s) as [|p ps] eqn:Es.
      * now apply split_space_nonempty in Es.
      * intros H; injection H as <- ->.
        destruct (IH p eq_refl) as [-> Hp].
        split; [reflexivity|]. simpl. now rewrite Ec, Hp.
Qed.

Lemma split_space_two (s a b : string) :
  split_space s = [a; b] ->
  s = (a ++ String " " b)%string
  /\ has_space a = false /\ has_space b = false.
Proof.
  revert a. induction s as [|c s IH]; intros a.
  - discriminate.
  - rewrite split_space_cons.
    destruct (Ascii.eqb_spec c " ") as [->|Hc].
    + intros H; injection H as <- H.
      apply split_space_one in H as [-> Hb]. now repeat split.
    + destruct (split_space s) as [|p ps] eqn:Es.
      * discriminate.
      * intros H; injection H as <- ->.
        destruct (IH p eq_refl) as [-> [Hp Hb]].
        repeat split; [|assumption].
        simpl. apply Ascii.eqb_neq in Hc. now rewrite Hc, Hp.
Qed.

Lemma split_space_app (a b : string) :
  has_space a = false ->
  split_space (a ++ String " " b) = a :: split_space b.
Proof.
  induction a as [|c a IH]; [reflexivity|].
  simpl has_space. rewrite orb_false_iff. intros [Hc Ha].
  change (String c a ++ String " " b)%string
    with (String c (a ++ String " " b)).
  rewrite split_space_cons, Hc, (IH Ha). reflexivity.
Qed.

Lemma split_space_bearer (t : string) :
  has_space t = false ->
  split_space ("Bearer " ++ t) = ["Bearer"; t].
Proof.
  intros Ht.
  change ("Bearer " ++ t)%string with ("Bearer" ++ String " " t)%string.
  rewrite split_space_app by reflexivity.
  now rewrite (split_space_no_space t Ht).
Qed.

Lemma extract_token_spec (authHeader : option string)
    (token : string) :
  extractTokenFromHeader authHeader = Some token
  <-> authHeader = Some ("Bearer " ++ token)%string
      /\ has_space token = false.
Proof.
  unfold extractTokenFromHeader. split.
  - destruct (truthy_str authHeader) eqn:Et; [|discriminate].
    apply truthy_str_Some in Et as [s [-> _]]. simpl negb. cbv iota.
    simpl default.
    destruct (split_space s) as [|a [|b [|c parts]]] eqn:Es;
      try discriminate.
    simpl. destruct (String.eqb_spec a "Bearer") as [->|]; [|discriminate].
    simpl. intros H; injection H as ->.
    apply split_space_two in Es as [-> [_ Hb]].
    split; [reflexivity | assumption].
  - intros [-> Ht].
    change (truthy_str (Some ("Bearer " ++ token)%string)) with true.
    cbn [negb].
    change (default "" (Some ("Bearer " ++ token)%string))
      with ("Bearer " ++ token)%string.
    rewrite (split_space_bearer token Ht). reflexivity.
Qed.

(** X12.  [extractTokenFromHeader] returns a token exactly for a header
    made of the word [Bearer], one space and a token without spaces, and
    the token it returns is that one; the bare header ["Bearer "] yields
    the empty token. *)
Theorem extractTokenFromHeader_iff (authHeader : option string)
    (token : string) :
  extractTokenFromHeader authHeader = Some token
  <-> authHeader = Some ("Bearer " ++ token)%string
      /\ has_space token = false.
Proof. apply extract_token_spec. Qed.

(** ** [buildAuthContext] and [authenticate] *)

(** The token both middlewares go on with: present and not empty. *)
Lemma usable_token (authHeader : option string) :
  truthy_str (extractTokenFromHeader authHeader) = true
  <-> exists t, authHeader = Some ("Bearer " ++ t)%string
                /\ t <> "" /\ has_space t = false.
Proof.
  rewrite truthy_str_Some. split.
  - intros [t [E Hne]]. apply extract_token_spec in E as [E Hs].
    now exists t.
  - intros [t [E [Hne Hs]]]. exists t. split; [|assumption].
    now apply extract_token_spec.
Qed.

Lemma bearer_inj (t t' : string) :
  Some ("Bearer " ++ t)%string = Some ("Bearer " ++ t')%string -> t = t'.
Proof. intros H. simpl in H. now injection H. Qed.

(** X13.  [buildAuthContext] never throws.  The context it returns is
    flagged authenticated exactly when the header ([Authorization], or
    [authorization] when that one is missing or empty) is [Bearer], a
    space and a non-empty token without spaces that [jwt.verify] accepts;
    the context then carries the three identity claims of the payload.  In
    every other case it is the anonymous context. *)
Theorem buildAuthContext_iff (jwt_verify : string -> jwt_verdict)
    (headers : option Headers.t) :
  let authHeader :=
    or_else (headers ≫= Headers.Authorization)
            (headers ≫= Headers.authorization) in
  let context := buildAuthContext jwt_verify headers in
  (Context.isAuthenticated context = true
   <-> exists t decoded,
         authHeader = Some ("Bearer " ++ t)%string
         /\ t <> "" /\ has_space t = false
         /\ jwt_verify t = Decoded decoded
         /\ context = Context.mk (Some (user_of_payload decoded)) true)
  /\ (Context.isAuthenticated context = false
      <-> context = Context.mk None false).
Proof.
  cbv zeta. unfold buildAuthContext.
  set (authHeader := or_else _ _).
  destruct (truthy_str (extractTokenFromHeader authHeader)) eqn:Et.
  - pose proof Et as Hu. apply usable_token in Hu as [t [E [Hne Hs]]].
    assert (Etok : extractTokenFromHeader authHeader = Some t)
      by now apply extract_token_spec.
    rewrite Etok. cbn [negb].
    change (default "" (Some t)) with t.
    unfold verifyAccessToken.
    destruct (jwt_verify t) as [p| | |x] eqn:Hv; cbn [Context.isAuthenticated].
    + split; [|split; discriminate].
      split; [|reflexivity]. intros _. now exists t, p.
    + split; [|split; reflexivity].
      split; [discriminate|].
      intros [t' [d [E' [_ [_ [Hv' _]]]]]].
      rewrite E in E'. apply bearer_inj in E'. congruence.
    + split; [|split; reflexivity].
      split; [discriminate|].
      intros [t' [d [E' [_ [_ [Hv' _]]]]]].
      rewrite E in E'. apply bearer_inj in E'. congruence.
    + split; [|split; reflexivity].
      split; [discriminate|].
      intros [t' [d [E' [_ [_ [Hv' _]]]]]].
      rewrite E in E'. apply bearer_inj in E'. congruence.
  - cbn [negb Context.isAuthenticated]. split; [|split; reflexivity].
    split; [discriminate|].
    intros [t [d [E [Hne [Hs _]]]]].
    assert (Hu : truthy_str (extractTokenFromHeader authHeader) = true)
      by (apply usable_token; now exists t).
    congruence.
Qed.

(** X14.  [authenticate] either attaches the user decoded from a usable,
    accepted token and returns after [next()] returned, or throws
    [AuthenticationError] "Invalid or expired token": that one error
    stands for a missing header, a malformed or refused token, and also
    for any error thrown by [next()]. *)
Theorem authenticate_outcomes (jwt_verify : string -> jwt_verdict)
    (headers : Headers.t) (next : Principal.t -> outcome unit) :
  let authHeader :=
    or_else (Headers.authorization headers) (Headers.Authorization headers) in
  (exists t decoded,
     authHeader = Some ("Bearer " ++ t)%string
     /\ t <> "" /\ has_space t = false
     /\ jwt_verify t = Decoded decoded
     /\ next (user_of_payload decoded) = Return tt
     /\ authenticate jwt_verify headers next
        = Return (user_of_payload decoded))
  \/ authenticate jwt_verify headers next
     = Raise (CustomError AuthenticationError "Invalid or expired token").
Proof.
  cbv zeta. unfold authenticate.
  set (authHeader := or_else _ _).
  destruct (truthy_str (extractTokenFromHeader authHeader)) eqn:Et;
    [|now right].
  pose proof Et as Hu. apply usable_token in Hu as [t [E [Hne Hs]]].
  assert (Etok : extractTokenFromHeader authHeader = Some t)
    by now apply extract_token_spec.
  rewrite Etok. cbn [negb].
  change (default "" (Some t)) with t.
  unfold verifyAccessToken.
  destruct (jwt_verify t) as [p| | |x] eqn:Hv; try now right.
  destruct (next (user_of_payload p)) as [[]|x] eqn:Hn; [left | now right].
  now exists t, p.
Qed.

(** * Further properties: ledger *)

(** ** Postings *)

Lemma updateBalance_shape now this amount operation db :
  exists b,
    updateBalance now this amount operation db
    = Ok (Account.set_updatedAt now (Account.set_balance b this),
          Account_save (Account.set_updatedAt now (Account.set_balance b this))
            db).
Proof.
  unfold updateBalance.
  destruct (String.eqb operation "debit");
    [|destruct (String.eqb operation "credit")];
    try destruct (includes _ _); eexists; reflexivity.
Qed.

(** X16.  [updateBalance] writes one account document and nothing else:
    whatever the operation and the amount, the identity, code, name, type
    and parent of the account stay as they were, [updatedAt] is the clock
    reading, every other account is untouched, and so is the transaction
    history. *)
Theorem updateBalance_frame (now : Z) (this this' : Account.t)
    (amount : Z) (operation : string) (db db' : Db) :
  updateBalance now this amount operation db = Ok (this', db') ->
  Account._id this' = Account._id this
  /\ Account.accountCode this' = Account.accountCode this
  /\ Account.accountName this' = Account.accountName this
  /\ Account.accountType this' = Account.accountType this
  /\ Account.parentAccount this' = Account.parentAccount this
  /\ Account.updatedAt this' = now
  /\ Account_findById db' (Account._id this) = Some this'
  /\ (forall id, id <> Account._id this ->
        Account_findById db' id = Account_findById db id)
  /\ transactions db' = transactions db.
Proof.
  destruct (updateBalance_shape now this amount operation db) as [b ->].
  intros H; injection H as <- <-.
  repeat split.
  - unfold Account_findById, Account_save; simpl. apply lookup_insert_eq.
  - intros id Hid. unfold Account_findById, Account_save; simpl.
    now apply lookup_insert_ne.
Qed.

Lemma updateBalance_frame_witness :
  exists this' db',
    updateBalance 5 Sample.cash 30 "debit" Sample.db0 = Ok (this', db')
    /\ Account.accountType this' = "asset"
    /\ Account_findById db' "l1" = Account_findById Sample.db0 "l1".
Proof.
  eexists _, _. split; [reflexivity|].
  match goal with
  | |- Account.accountType ?t = _ /\ Account_findById ?d _ = _ =>
      pose proof (updateBalance_frame 5 Sample.cash t 30 "debit" Sample.db0
                    d eq_refl) as H
  end.
  split; [apply H | apply H; discriminate].
Defined.

(** ** Decisions *)

(** X17.  A rejected transaction can still be approved, and the approval
    keeps the rejection reason: after [reject] and then [approve] the
    stored transaction is approved, names the second approver, and its
    metadata still holds the reason of the rejection. *)
Theorem reject_then_approve_keeps_reason (now1 now2 : Z)
    (this t1 t2 : Transaction.t) (rejecter approver reason : string)
    (db db1 db2 : Db) :
  reject now1 this rejecter reason db = Ok (t1, db1) ->
  approve now2 t1 approver db1 = Ok (t2, db2) ->
  Transaction_findById db2 (Transaction._id this) = Some t2
  /\ Transaction.status t2 = "approved"
  /\ Transaction.approvedBy t2 = Some approver
  /\ exists meta, Transaction.metadata t2 = Some meta
                  /\ meta !! "rejectionReason" = Some reason.
Proof.
  unfold reject, approve. intros H1 H2.
  injection H1 as <- <-. injection H2 as <- <-.
  split.
  { apply (findById_after_save
             (Transaction.set_updatedAt now2
                (Transaction.set_updatedAt now2
                   (Transaction.set_approvedBy (Some approver)
                      (Transaction.set_status "approved"
                         (Transaction.set_updatedAt now1
                            (Transaction.set_updatedAt now1
                               (Transaction.set_metadata
                                  (Some (spread_rejectionReason
                                           (Transaction.metadata
                                              (Transaction.set_approvedBy
                                                 (Some rejecter)
                                                 (Transaction.set_status
                                                    "rejected" this)))
                                           reason))
                                  (Transaction.set_approvedBy (Some rejecter)
                                     (Transaction.set_status "rejected"
                                        this)))))))))). }
  split; [reflexivity|]. split; [reflexivity|].
  eexists. split; [reflexivity|]. apply lookup_insert_eq.
Qed.

Lemma reject_then_approve_keeps_reason_witness :
  exists t1 db1 t2 db2,
    reject 10 Sample.sale "m1" "no receipt" Sample.db0 = Ok (t1, db1)
    /\ approve 20 t1 "m2" db1 = Ok (t2, db2)
    /\ Transaction.status t2 = "approved"
    /\ Transaction.approvedBy t2 = Some "m2".
Proof.
  epose proof (reject_then_approve_keeps_reason 10 20 Sample.sale _ _
                 "m1" "m2" "no receipt" Sample.db0 _ _ eq_refl eq_refl)
    as [_ [H1 [H2 _]]].
  eexists _, _, _, _. split; [reflexivity|]. split; [reflexivity|].
  split; [exact H1 | exact H2].
Defined.

(** ** Reconciliation *)

(** Replacing a stored transaction by one with the same amount and sides
    leaves every history balance as it was. *)
Lemma history_balance_upsert (k : AccountKind) (accountId : string)
    (x x' : Transaction.t) (l : list Transaction.t) :
  find (fun y => String.eqb (Transaction._id y) (Transaction._id x')) l
  = Some x ->
  Transaction.amount x' = Transaction.amount x ->
  Transaction.debitAccount x' = Transaction.debitAccount x ->
  Transaction.creditAccount x' = Transaction.creditAccount x ->
  history_balance k accountId (upsert x' l) = history_balance k accountId l.
Proof.
  intros Hf Ha Hd Hc. induction l as [|y l IH]; [discriminate|].
  simpl in Hf |- *.
  destruct (String.eqb (Transaction._id y) (Transaction._id x')).
  - injection Hf as ->. simpl. now rewrite Ha, Hd, Hc.
  - simpl. now rewrite (IH Hf).
Qed.

(** The report depends on the accounts and on the history balances only. *)
Lemma reconcileAccounts_ext (db db' : Db) (accountIds : list string) :
  accounts db' = accounts db ->
  (forall a, history_balance Asset a (transactions db')
             = history_balance Asset a (transactions db)) ->
  reconcileAccounts db' accountIds = reconcileAccounts db accountIds.
Proof.
  intros Hacc Hh. unfold reconcileAccounts.
  assert (E : forall results,
             fold_left (reconcile_account db') accountIds results
             = fold_left (reconcile_account db) accountIds results).
  { induction accountIds as [|a ids IH]; intros results; [reflexivity|].
    simpl. rewrite IH. f_equal.
    unfold reconcile_account, Account_findById. rewrite Hacc.
    destruct (accounts db !! a); [|reflexivity].
    rewrite !reconcile_fold_debit_normal, !history_balance_touching.
    now rewrite Hh. }
  now rewrite E.
Qed.

(** X18.  Reconciliation does not look at the status: approving or
    rejecting a stored transaction leaves the report of
    [reconcileAccounts] exactly as it was, for every list of account
    ids. *)
Theorem decision_keeps_reconciliation (now : Z) (this this' : Transaction.t)
    (approverId reason : string) (db db' : Db) (accountIds : list string) :
  Transaction_findById db (Transaction._id this) = Some this ->
  approve now this approverId db = Ok (this', db')
  \/ reject now this approverId reason db = Ok (this', db') ->
  reconcileAccounts db' accountIds = reconcileAccounts db accountIds.
Proof.
  intros Hf [H | H]; [unfold approve in H | unfold reject in H];
    injection H as <- <-;
    (apply reconcileAccounts_ext; [reflexivity|]);
    intros a; simpl;
    now apply (history_balance_upsert Asset a this).
Qed.

Lemma decision_keeps_reconciliation_witness :
  exists this' db',
    reject 30 Sample.sale "m1" "no receipt"
      (Transaction_save Sample.sale Sample.db0) = Ok (this', db')
    /\ reconcileAccounts db' ["a1"; "r1"]
       = reconcileAccounts (Transaction_save Sample.sale Sample.db0)
           ["a1"; "r1"].
Proof.
  eexists _, _. split; [reflexivity|].
  eapply (decision_keeps_reconciliation 30 Sample.sale _ "m1" "no receipt"
            (Transaction_save Sample.sale Sample.db0)).
  - reflexivity.
  - right. reflexivity.
Defined.

(** ** [createDoubleEntryTransaction] *)

Lemma find_upsert_other (x : Transaction.t) (l : list Transaction.t)
    (id : string) :
  Transaction._id x <> id ->
  find (fun y => String.eqb (Transaction._id y) id) (upsert x l)
  = find (fun y => String.eqb (Transaction._id y) id) l.
Proof.
  intros Hne. induction l as [|y l IH]; simpl.
  - apply String.eqb_neq in Hne. now rewrite Hne.
  - destruct (String.eqb_spec (Transaction._id y) (Transaction._id x))
      as [E|E]; simpl.
    + assert (Hy : Transaction._id y <> id) by congruence.
      apply String.eqb_neq in Hne, Hy. now rewrite Hne, Hy.
    + now rewrite IH.
Qed.

Lemma upsert_fresh (x : Transaction.t) (l : list Transaction.t) :
  find (fun y => String.eqb (Transaction._id y) (Transaction._id x)) l = None ->
  upsert x l = (l ++ [x])%list.
Proof.
  induction l as [|y l IH]; simpl; [reflexivity|].
  destruct (String.eqb (Transaction._id y) (Transaction._id x));
    [discriminate|].
  intros H. now rewrite (IH H).
Qed.

Lemma history_balance_app (k : AccountKind) (a : string)
    (l1 l2 : list Transaction.t) :
  history_balance k a (l1 ++ l2)%list
  = history_balance k a l1 + history_balance k a l2.
Proof.
  induction l1 as [|x l1 IH]; simpl; [reflexivity|].
  fold (history_balance k a (l1 ++ l2)%list). fold (history_balance k a l1).
  rewrite IH. lia.
Qed.

(** The schema requires a [reference]: a document without one does not
    pass the validators, whatever the driver would say. *)
Lemma Transaction_valid_reference (doc : Transaction.t) :
  Transaction_valid doc = true -> is_Some (Transaction.reference doc).
Proof.
  unfold Transaction_valid.
  destruct (Transaction.reference doc) as [r|]; [eauto|].
  cbn. discriminate.
Qed.

Lemma Transaction_try_save_no_reference
    (refuses : Transaction.t -> option exn) (now : Z)
    (doc : Transaction.t) (db : Db) :
  Transaction.reference doc = None ->
  Transaction_try_save refuses now doc db = Raise MongooseValidationError.
Proof.
  intros H. unfold Transaction_try_save.
  destruct (Transaction_valid doc) eqn:E; [|reflexivity].
  apply Transaction_valid_reference in E as [r E]. congruence.
Qed.

Ltac cdet_cases refuses db :=
  unfold createDoubleEntryTransaction;
  repeat match goal with
    | |- context [match ?o with Some _ => _ | None => _ end] =>
        match o with
        | Account_findById _ _ => destruct o eqn:?
        | _ => is_var o; destruct o
        end
    | |- context [if ?n <=? 0 then _ else _] =>
        destruct (Z.leb_spec n 0)
    end;
  cbv zeta;
  try rewrite Transaction_try_save_no_reference by reflexivity.

(** X19.  [createDoubleEntryTransaction] throws [ValidationError] exactly
    when a side is missing or the amount is not positive, and then it has
    written nothing. *)
Theorem createDoubleEntryTransaction_validation
    (refuses : Transaction.t -> option exn) (timestamp : Z)
    (rnd1 rnd2 oid1 oid2 : string)
    (debitData creditData : option Transaction.side) (amount : Z)
    (description : string) (db : Db) :
  let r :=
    createDoubleEntryTransaction refuses timestamp rnd1 rnd2 oid1 oid2
      debitData creditData amount description db in
  ((exists message, fst r = Raise (CustomError ValidationError message))
   <-> debitData = None \/ creditData = None \/ amount <= 0)
  /\ ((exists message, fst r = Raise (CustomError ValidationError message))
      -> snd r = db).
Proof.
  cbv zeta. cdet_cases refuses db; simpl;
    (split;
     [ split;
       [ intros [message Hm]; try discriminate; tauto
       | intros [Hm | [Hm | Hm]]; try discriminate; try lia;
         eexists; reflexivity ]
     | intros [message Hm]; try discriminate; reflexivity ]).
Qed.

(** X20.  Whatever it returns or throws, [createDoubleEntryTransaction]
    leaves the accounts collection, and so every stored balance, as it
    was. *)
Theorem createDoubleEntryTransaction_keeps_accounts
    (refuses : Transaction.t -> option exn) (timestamp : Z)
    (rnd1 rnd2 oid1 oid2 : string)
    (debitData creditData : option Transaction.side) (amount : Z)
    (description : string) (db : Db) (id : string) :
  let r :=
    createDoubleEntryTransaction refuses timestamp rnd1 rnd2 oid1 oid2
      debitData creditData amount description db in
  accounts (snd r) = accounts db
  /\ storedBalance (snd r) id = storedBalance db id.
Proof.
  cbv zeta.
  assert (E : accounts
                (snd (createDoubleEntryTransaction refuses timestamp rnd1
                        rnd2 oid1 oid2 debitData creditData amount
                        description db))
              = accounts db).
  { cdet_cases refuses db; reflexivity. }
  split; [exact E | now apply storedBalance_accounts].
Qed.

(** X21.  With both sides given and a positive amount, an unknown debit or
    credit account makes [createDoubleEntryTransaction] throw
    [DatabaseError], not [ValidationError] (the validation error raised
    inside the [try] is replaced by its [catch]), and nothing is
    written. *)
Theorem createDoubleEntryTransaction_unknown_account
    (refuses : Transaction.t -> option exn) (timestamp : Z)
    (rnd1 rnd2 oid1 oid2 : string)
    (debitData creditData : Transaction.side) (amount : Z)
    (description : string) (db : Db) :
  0 < amount ->
  Account_findById db (Transaction.accountId debitData) = None
  \/ Account_findById db (Transaction.accountId creditData) = None ->
  createDoubleEntryTransaction refuses timestamp rnd1 rnd2 oid1 oid2
    (Some debitData) (Some creditData) amount description db
  = (Raise (CustomError DatabaseError
              "Failed to create double-entry transaction"), db).
Proof.
  intros Hpos Hmiss. unfold createDoubleEntryTransaction.
  destruct (Z.leb_spec amount 0); [lia|].
  destruct Hmiss as [-> | E]; [reflexivity|].
  destruct (Account_findById db (Transaction.accountId debitData));
    [rewrite E|]; reflexivity.
Qed.

Lemma createDoubleEntryTransaction_unknown_account_witness :
  createDoubleEntryTransaction (fun _ => None) 1700000000123 "r1" "r2"
    "o1" "o2" (Some Sample.debit_cash)
    (Some (Transaction.mkSide "asset" "nowhere")) 250 "cash sale" Sample.db0
  = (Raise (CustomError DatabaseError
              "Failed to create double-entry transaction"), Sample.db0).
Proof.
  apply (createDoubleEntryTransaction_unknown_account (fun _ => None)
           1700000000123 "r1" "r2" "o1" "o2" Sample.debit_cash
           (Transaction.mkSide "asset" "nowhere") 250 "cash sale" Sample.db0).
  - lia.
  - right. vm_compute. reflexivity.
Defined.

(** X22.  [createDoubleEntryTransaction] never returns a pair and never
    writes.  Both documents are built without the [reference] the schema
    requires, so the first [save()] fails in the validators, before the
    driver is asked, and the [catch] turns the failure into a
    [DatabaseError]: with both sides given, a positive amount and both
    accounts stored the call throws [DatabaseError], and in every case the
    database is left as it was. *)
Theorem createDoubleEntryTransaction_never_returns
    (refuses : Transaction.t -> option exn) (timestamp : Z)
    (rnd1 rnd2 oid1 oid2 : string)
    (debitData creditData : option Transaction.side) (amount : Z)
    (description : string) (db : Db) :
  let r :=
    createDoubleEntryTransaction refuses timestamp rnd1 rnd2 oid1 oid2
      debitData creditData amount description db in
  (forall pair, fst r <> Return pair)
  /\ snd r = db
  /\ (0 < amount ->
      (exists d a,
         debitData = Some d
         /\ Account_findById db (Transaction.accountId d) = Some a) ->
      (exists c a,
         creditData = Some c
         /\ Account_findById db (Transaction.accountId c) = Some a) ->
      fst r = Raise (CustomError DatabaseError
                       "Failed to create double-entry transaction")).
Proof.
  cbv zeta. split; [|split].
  - intros pair. cdet_cases refuses db; discriminate.
  - cdet_cases refuses db; reflexivity.
  - intros Hpos [d [a [-> Hd]]] [c [a' [-> Hc]]].
    unfold createDoubleEntryTransaction.
    destruct (Z.leb_spec amount 0); [lia|].
    rewrite Hd, Hc. cbv zeta.
    rewrite Transaction_try_save_no_reference by reflexivity.
    reflexivity.
Qed.

Lemma createDoubleEntryTransaction_never_returns_witness :
  createDoubleEntryTransaction (fun _ => None) 1700000000123 "r1" "r2"
    "o1" "o2" (Some Sample.debit_cash) (Some Sample.credit_sales) 250
    "cash sale" Sample.db0
  = (Raise (CustomError DatabaseError
              "Failed to create double-entry transaction"), Sample.db0).
Proof.
  destruct (createDoubleEntryTransaction_never_returns (fun _ => None)
              1700000000123 "r1" "r2" "o1" "o2" (Some Sample.debit_cash)
              (Some Sample.credit_sales) 250 "cash sale" Sample.db0)
    as [_ [Hdb Hthrow]].
  apply injective_projections; simpl fst; simpl snd.
  - apply Hthrow.
    + lia.
    + exists Sample.debit_cash, Sample.cash. split; reflexivity.
    + exists Sample.credit_sales, Sample.sales. split; reflexivity.
  - exact Hdb.
Defined.

(** What one more stored transaction adds to a history balance. *)
Lemma history_balance_save_fresh (k : AccountKind) (a : string)
    (x : Transaction.t) (db : Db) :
  Transaction_findById db (Transaction._id x) = None ->
  history_balance k a (transactions (Transaction_save x db))
  = history_balance k a (transactions db) + history_balance k a [x].
Proof.
  intros Hf. unfold Transaction_save. simpl transactions.
  rewrite (upsert_fresh x (transactions db) Hf).
  apply history_balance_app.
Qed.

Lemma findById_save_other (x : Transaction.t) (db : Db) (id : string) :
  Transaction._id x <> id ->
  Transaction_findById (Transaction_save x db) id
  = Transaction_findById db id.
Proof.
  intros Hne. unfold Transaction_findById, Transaction_save. simpl.
  now apply find_upsert_other.
Qed.

Lemma reconcileAccounts_calculated (db : Db) (a : string)
    (e : Reconcile.entry) (flag : bool) :
  reconcileAccounts db [a] = Ok (Reconcile.mkReport [e] flag) ->
  exists account,
    Account_findById db a = Some account
    /\ Reconcile.recordedBalance e = Account.balance account
    /\ Reconcile.calculatedBalance e
       = history_balance Asset a (transactions db)
    /\ Reconcile.reconciled e
       = Z.eqb (Account.balance account
                - history_balance Asset a (transactions db)) 0
    /\ flag = Reconcile.reconciled e.
Proof.
  destruct (Account_findById db a) as [account|] eqn:Ea.
  - rewrite (reconcileAccounts_single db a account Ea). cbv zeta.
    intros H; injection H as <- <-. exists account.
    repeat split. simpl. apply andb_true_r.
  - unfold reconcileAccounts. simpl. unfold reconcile_account.
    rewrite Ea. discriminate.
Qed.

(** X25.  Posting keeps a debit-normal account reconciled.  Take an asset
    or expense account that [reconcileAccounts] reports as reconciled,
    store a new transaction that debits it (crediting some other account)
    and post that leg with [updateBalance ... "debit"]: the account is
    still reported as reconciled.  The same holds for a transaction that
    credits it, posted with ["credit"]. *)
Theorem posting_keeps_debit_normal_reconciled (now : Z) (db : Db)
    (account : Account.t) (tx : Transaction.t) (d : Direction)
    (e : Reconcile.entry) :
  let a := Account._id account in
  Account_findById db a = Some account ->
  In (Account.accountType account) ["asset"; "expense"] ->
  Transaction_findById db (Transaction._id tx) = None ->
  (d = Debit
   /\ Transaction.accountId (Transaction.debitAccount tx) = a
   /\ Transaction.accountId (Transaction.creditAccount tx) <> a)
  \/ (d = Credit
      /\ Transaction.accountId (Transaction.creditAccount tx) = a
      /\ Transaction.accountId (Transaction.debitAccount tx) <> a) ->
  reconcileAccounts db [a] = Ok (Reconcile.mkReport [e] true) ->
  exists account' db' e',
    updateBalance now account (Transaction.amount tx) (direction_name d)
      (Transaction_save tx db) = Ok (account', db')
    /\ reconcileAccounts db' [a] = Ok (Reconcile.mkReport [e'] true)
    /\ Reconcile.reconciled e' = true
    /\ Reconcile.difference e' = 0.
Proof.
  cbv zeta. intros Ha Hty Hfresh Hside He.
  apply reconcileAccounts_calculated in He
    as [account0 [Ha0 [_ [_ [Hrec Hflag]]]]].
  rewrite Ha in Ha0. injection Ha0 as <-.
  rewrite <- Hflag in Hrec. symmetry in Hrec. apply Z.eqb_eq in Hrec.
  apply includes_In in Hty.
  assert (Hhist :
            history_balance Asset (Account._id account)
              (transactions (Transaction_save tx db))
            = history_balance Asset (Account._id account) (transactions db)
              + signedEffect Asset d (Transaction.amount tx)).
  { rewrite history_balance_save_fresh by assumption. f_equal. simpl.
    destruct Hside as [[-> [E1 E2]] | [-> [E1 E2]]];
      apply String.eqb_neq in E2; rewrite E1, E2, String.eqb_refl;
      simpl; lia. }
  destruct d; simpl direction_name;
    [rewrite updateBalance_debit | rewrite updateBalance_credit];
    rewrite Hty; cbv zeta; eexists _, _, _;
    (split; [reflexivity|]);
    match goal with
    | |- reconcileAccounts (Account_save ?acc ?db1) _ = _ /\ _ =>
        assert (Hacc' : Account_findById (Account_save acc db1)
                          (Account._id account) = Some acc)
          by (unfold Account_findById, Account_save; simpl;
              apply lookup_insert_eq);
        rewrite (reconcileAccounts_single _ _ _ Hacc')
    end;
    cbv zeta; simpl transactions; simpl Account.balance;
    change (upsert tx (transactions db))
      with (transactions (Transaction_save tx db));
    rewrite Hhist; simpl signedEffect;
    match goal with
    | |- context [Z.eqb ?v 0] =>
        replace v with 0 by lia
    end;
    repeat split.
Qed.

Lemma posting_keeps_debit_normal_reconciled_witness :
  let db := mkDb (accounts Sample.db0) [] in
  let cash0 := Account.mk "a1" "1000" "Cash" "asset" None 0 0 in
  let db := Account_save cash0 db in
  exists account' db' e',
    updateBalance 5 cash0 250 "debit" (Transaction_save Sample.sale db)
    = Ok (account', db')
    /\ reconcileAccounts db' ["a1"] = Ok (Reconcile.mkReport [e'] true).
Proof.
  cbv zeta.
  destruct (posting_keeps_debit_normal_reconciled 5
              (Account_save (Account.mk "a1" "1000" "Cash" "asset" None 0 0)
                 (mkDb (accounts Sample.db0) []))
              (Account.mk "a1" "1000" "Cash" "asset" None 0 0)
              Sample.sale Debit
              (Reconcile.mkEntry "a1" "1000" 0 0 0 true))
    as [account' [db' [e' [H1 [H2 _]]]]].
  - vm_compute. reflexivity.
  - simpl. auto.
  - reflexivity.
  - left. repeat split. discriminate.
  - vm_compute. reflexivity.
  - exists account', db', e'. split; assumption.
Defined.

(** ** [createDoubleEntry] *)

(** X26.  When [createDoubleEntry] returns, the partner is stored with
    [this] in its [linkedTransaction] and with the generated
    [transactionId], whatever the partner data carried in those two
    properties; [this] is stored with the partner in its
    [linkedTransaction] and is otherwise unchanged apart from [updatedAt];
    no account is touched. *)
Theorem createDoubleEntry_links (refuses : Transaction.t -> option exn)
    (now : Z) (rnd : string) (this partnerTransaction : Transaction.t)
    (db : Db) (partner this' : Transaction.t) :
  let r := createDoubleEntry refuses now rnd this partnerTransaction db in
  fst r = Return (partner, this') ->
  Transaction.linkedTransaction partner = Some (Transaction._id this)
  /\ Transaction.linkedTransaction this' = Some (Transaction._id partner)
  /\ Transaction.transactionId partner
     = ("TX-" ++ JSDate.decimal now ++ "-" ++ rnd)%string
  /\ Transaction._id partner = Transaction._id partnerTransaction
  /\ Transaction.amount partner = Transaction.amount partnerTransaction
  /\ Transaction.status partner = Transaction.status partnerTransaction
  /\ this' = Transaction.set_updatedAt now
               (Transaction_set_linkedTransaction
                  (Some (Transaction._id partner)) this)
  /\ Transaction_findById (snd r) (Transaction._id this) = Some this'
  /\ (Transaction._id partner <> Transaction._id this ->
      Transaction_findById (snd r) (Transaction._id partner) = Some partner)
  /\ accounts (snd r) = accounts db.
Proof.
  cbv zeta. unfold createDoubleEntry, Transaction_try_save.
  destruct (Transaction_valid _) eqn:V1; [|discriminate].
  destruct (refuses _) eqn:R1; [discriminate|].
  match goal with
  | |- context [if Transaction_valid ?doc then _ else _] =>
      destruct (Transaction_valid doc) eqn:V2; [|discriminate]
  end.
  match goal with
  | |- context [match refuses ?doc with Some _ => _ | None => _ end] =>
      destruct (refuses doc) eqn:R2; [discriminate|]
  end.
  cbn [fst snd]. intros H; injection H as <- <-.
  repeat split.
  - apply (findById_after_save
             (Transaction.set_updatedAt now
                (Transaction_set_linkedTransaction
                   (Some (Transaction._id partnerTransaction)) this))).
  - intros Hne. rewrite findById_save_other by (simpl in *; congruence).
    apply (findById_after_save
             (Transaction.set_updatedAt now
                (Transaction_set_transactionId
                   ("TX-" ++ JSDate.decimal now ++ "-" ++ rnd)
                   (Transaction_set_linkedTransaction
                      (Some (Transaction._id this)) partnerTransaction)))).
Qed.

Lemma createDoubleEntry_links_witness :
  exists partner this',
    fst (createDoubleEntry (fun _ => None) 20 "abc" Sample.sale
           Sample.borrowing (Transaction_save Sample.sale Sample.db0))
    = Return (partner, this')
    /\ Transaction.linkedTransaction partner = Some "t1"
    /\ Transaction.linkedTransaction this' = Some "t2".
Proof.
  eexists _, _. split; [reflexivity|].
  match goal with
  | |- Transaction.linkedTransaction ?p = _
       /\ Transaction.linkedTransaction ?t = _ =>
      pose proof (createDoubleEntry_links (fun _ => None) 20 "abc"
                    Sample.sale Sample.borrowing
                    (Transaction_save Sample.sale Sample.db0) p t eq_refl)
        as H
  end.
  split; apply H.
Defined.

(** ** [calculateRunningBalance] *)

(** The callback adds the signed amount of the sign rule. *)
Lemma running_step_signed (b : Z) (tx : Transaction.t) :
  running_step b tx = b + signed_amount tx.
Proof.
  unfold running_step, signed_amount, sign_of_type. cbn [includes].
  rewrite !orb_false_r.
  rewrite (String.eqb_sym "debit"), (String.eqb_sym "purchase"),
    (String.eqb_sym "credit"), (String.eqb_sym "refund").
  destruct (_ || _); [lia|]. destruct (_ || _); lia.
Qed.

Lemma signed_total_from (b : Z) (txs : list Transaction.t) :
  fold_left (fun total tx => total + signed_amount tx) txs b
  = b + signed_total txs.
Proof.
  unfold signed_total. revert b.
  induction txs as [|tx txs IH]; intros b; cbn [fold_left]; [lia|].
  rewrite (IH (b + signed_amount tx)), (IH (0 + signed_amount tx)). lia.
Qed.

Lemma signed_total_snoc (txs : list Transaction.t) (tx : Transaction.t) :
  signed_total (txs ++ [tx])%list = signed_total txs + signed_amount tx.
Proof. unfold signed_total. rewrite fold_left_app. reflexivity. Qed.

Lemma running_from_lookup (b : Z) (txs : list Transaction.t) (i : nat) :
  running_from b txs !! i
  = (fun tx => Running.mk tx (b + signed_total (take (S i) txs)))
    <$> txs !! i.
Proof.
  revert b i. induction txs as [|tx txs IH]; intros b i; [reflexivity|].
  destruct i as [|i].
  - change (running_from b (tx :: txs) !! 0%nat)
      with (Some (Running.mk tx (running_step b tx))).
    change (signed_total (take 1 (tx :: txs))) with (0 + signed_amount tx).
    rewrite running_step_signed. reflexivity.
  - change (running_from b (tx :: txs) !! S i)
      with (running_from (running_step b tx) txs !! i).
    rewrite IH. change ((tx :: txs) !! S i) with (txs !! i).
    change (signed_total (take (S (S i)) (tx :: txs)))
      with (fold_left (fun total tx => total + signed_amount tx)
              (take (S i) txs) (0 + signed_amount tx)).
    rewrite signed_total_from, running_step_signed.
    destruct (txs !! i); [|reflexivity].
    cbn [fmap option_fmap option_map]. f_equal. f_equal. lia.
Qed.

(** The sign rule, type by type. *)
Lemma signed_amount_cases (tx : Transaction.t) :
  (In (Transaction.type tx) ["debit"; "purchase"] ->
   signed_amount tx = Transaction.amount tx)
  /\ (In (Transaction.type tx) ["credit"; "refund"] ->
      signed_amount tx = - Transaction.amount tx)
  /\ (~ In (Transaction.type tx) ["debit"; "purchase"; "credit"; "refund"] ->
      signed_amount tx = 0).
Proof.
  unfold signed_amount, sign_of_type.
  repeat split.
  - intros [<- | [<- | []]]; reflexivity.
  - intros [<- | [<- | []]]; reflexivity.
  - intros Hn.
    destruct (includes ["debit"; "purchase"] (Transaction.type tx)) eqn:E1.
    { apply includes_In in E1. exfalso. apply Hn. simpl in *. tauto. }
    destruct (includes ["credit"; "refund"] (Transaction.type tx)) eqn:E2.
    { apply includes_In in E2. exfalso. apply Hn. simpl in *. tauto. }
    reflexivity.
Qed.

(** X27.  [calculateRunningBalance] returns one entry per transaction, in
    the same order.  The entry at position [i] carries its transaction and
    the running balance after it: the balance before it (zero before the
    first) plus the amount for a debit or a purchase, minus the amount for
    a credit or a refund, unchanged for every other type; so it is the
    sum, from the first transaction on, of the signed amounts up to and
    including [i].  The status is not looked at. *)
Theorem calculateRunningBalance_prefix_sums
    (transactions : list Transaction.t) (i : nat) (tx : Transaction.t) :
  length (calculateRunningBalance transactions) = length transactions
  /\ (transactions !! i = Some tx ->
      exists e,
        calculateRunningBalance transactions !! i = Some e
        /\ Running.transaction e = tx
        /\ Running.runningBalance e
           = signed_total (take (S i) transactions)
        /\ (In (Transaction.type tx) ["debit"; "purchase"] ->
            Running.runningBalance e
            = signed_total (take i transactions) + Transaction.amount tx)
        /\ (In (Transaction.type tx) ["credit"; "refund"] ->
            Running.runningBalance e
            = signed_total (take i transactions) - Transaction.amount tx)
        /\ (~ In (Transaction.type tx)
                ["debit"; "purchase"; "credit"; "refund"] ->
            Running.runningBalance e
            = signed_total (take i transactions))).
Proof.
  split.
  - unfold calculateRunningBalance. generalize 0.
    induction transactions as [|t txs IH]; intros b; simpl;
      [reflexivity | now rewrite IH].
  - intros Hi.
    exists (Running.mk tx (signed_total (take (S i) transactions))).
    split.
    { unfold calculateRunningBalance. rewrite running_from_lookup, Hi.
      reflexivity. }
    split; [reflexivity|]. split; [reflexivity|].
    cbn [Running.runningBalance].
    rewrite (take_S_r transactions i tx Hi), signed_total_snoc.
    destruct (signed_amount_cases tx) as [Hp [Hm Hz]].
    repeat split; intros H.
    + rewrite (Hp H). reflexivity.
    + rewrite (Hm H). lia.
    + rewrite (Hz H). lia.
Qed.

Lemma calculateRunningBalance_prefix_sums_witness :
  exists e,
    calculateRunningBalance
      [Sample.purchase; Sample.sale;
       Transaction.set_status "rejected"
         (Transaction.mk "t3" "TX-3" 100 "refund" Sample.debit_cash
            Sample.credit_sales (Some Sample.by_employee) "returned goods"
            "pending" None None None 1700000000500 1700000000500)]
      !! 2%nat = Some e
    /\ Running.runningBalance e = 5 + 250 - 100.
Proof.
  destruct (calculateRunningBalance_prefix_sums
              [Sample.purchase; Sample.sale;
               Transaction.set_status "rejected"
                 (Transaction.mk "t3" "TX-3" 100 "refund" Sample.debit_cash
                    Sample.credit_sales (Some Sample.by_employee)
                    "returned goods" "pending" None None None
                    1700000000500 1700000000500)]
              2
              (Transaction.set_status "rejected"
                 (Transaction.mk "t3" "TX-3" 100 "refund" Sample.debit_cash
                    Sample.credit_sales (Some Sample.by_employee)
                    "returned goods" "pending" None None None
                    1700000000500 1700000000500)))
    as [_ H].
  destruct (H eq_refl) as [e [He [_ [_ [_ [Hm _]]]]]].
  exists e. split; [exact He|].
  rewrite Hm by (simpl; auto). vm_compute. reflexivity.
Defined.

(** ** [aggregateByPeriod], bucket by bucket *)

Lemma obj_get_None (o : JSObject) (key : string) :
  obj_get o key = None <-> ~ In key (map fst o).
Proof.
  induction o as [|[k v] o IH]; simpl; [tauto|].
  destruct (String.eqb_spec k key) as [->|Hne].
  - split; [discriminate | tauto].
  - rewrite IH. tauto.
Qed.

Lemma obj_set_fresh (o : JSObject) (key : string) (v : Bucket.t) :
  obj_get o key = None -> obj_set o key v = (o ++ [(key, v)])%list.
Proof.
  induction o as [|[k w] o IH]; simpl; [reflexivity|].
  destruct (String.eqb k key); [discriminate|].
  intros H. now rewrite (IH H).
Qed.

Lemma obj_set_last (o : JSObject) (key : string) (v v' : Bucket.t) :
  obj_get o key = None ->
  obj_set (o ++ [(key, v)])%list key v' = (o ++ [(key, v')])%list.
Proof.
  induction o as [|[k w] o IH]; simpl.
  - now rewrite String.eqb_refl.
  - destruct (String.eqb k key); [discriminate|].
    intros H. now rewrite (IH H).
Qed.

Lemma obj_get_split (o : JSObject) (key : string) (b : Bucket.t) :
  obj_get o key = Some b ->
  exists o1 o2,
    o = (o1 ++ (key, b) :: o2)%list
    /\ (forall v, obj_set o key v = (o1 ++ (key, v) :: o2)%list).
Proof.
  induction o as [|[k w] o IH]; simpl; [discriminate|].
  destruct (String.eqb_spec k key) as [->|Hne].
  - intros H; injection H as ->. exists [], o. split; reflexivity.
  - intros H. destruct (IH H) as [o1 [o2 [-> Hset]]].
    exists ((k, w) :: o1), o2. split; [reflexivity|].
    intros v. simpl. now rewrite Hset.
Qed.

Lemma sum_amount_snoc (l : list Transaction.t) (tx : Transaction.t) :
  sum_amount (l ++ [tx])%list = sum_amount l + Transaction.amount tx.
Proof.
  induction l as [|x l IH]; simpl; [lia|].
  fold (sum_amount (l ++ [tx])%list). fold (sum_amount l). lia.
Qed.

Lemma NoDup_snoc (l : list string) (x : string) :
  List.NoDup l -> ~ In x l -> List.NoDup (l ++ [x])%list.
Proof.
  induction l as [|y l IH]; simpl; intros Hnd Hx.
  - constructor; [tauto | constructor].
  - inversion Hnd as [|? ? Hy Hl]; subst. constructor.
    + intros Hin. apply in_app_or in Hin as [Hin | [<- | []]]; tauto.
    + apply IH; tauto.
Qed.

Section AggregateProofs.

Variable tz : Z.
Variable period : string.
Variable legacy : string -> option Z.

Local Abbreviation key := (key_of tz period).
Local Abbreviation ok := (bucket_ok tz period).

Lemma bucket_ok_other (k : string) (b : Bucket.t)
    (done : list Transaction.t) (tx : Transaction.t) :
  ok k b done -> key tx <> k -> ok k b (done ++ [tx])%list.
Proof.
  intros [Hd [Ht [Hn [Hc Ha]]]] Hne.
  repeat split; try assumption.
  rewrite List.filter_app. simpl. unfold same_period at 2.
  apply String.eqb_neq in Hne. rewrite Hne.
  now rewrite app_nil_r.
Qed.

Lemma bucket_ok_same (k : string) (b : Bucket.t)
    (done : list Transaction.t) (tx : Transaction.t) :
  ok k b done -> key tx = k ->
  ok k (Bucket.mk (Bucket.date b)
          (Bucket.totalAmount b + Transaction.amount tx)
          (Bucket.count b + 1) (Bucket.transactions b ++ [tx]))
    (done ++ [tx])%list.
Proof.
  intros [Hd [Ht [Hn [Hc Ha]]]] He.
  unfold bucket_ok. simpl. repeat split.
  - assumption.
  - rewrite List.filter_app. simpl. unfold same_period at 2.
    rewrite He, String.eqb_refl. now rewrite Ht.
  - now destruct (Bucket.transactions b).
  - rewrite length_app, Hc. simpl. lia.
  - rewrite sum_amount_snoc, Ha. reflexivity.
Qed.

Lemma bucket_ok_fresh (o : JSObject) (done : list Transaction.t)
    (tx : Transaction.t) :
  (forall tx', In tx' done -> In (key tx') (map fst o)) ->
  ~ In (key tx) (map fst o) ->
  ok (key tx)
    (Bucket.mk (key tx) (0 + Transaction.amount tx) (0 + 1) ([] ++ [tx]))
    (done ++ [tx])%list.
Proof.
  intros Hcov Hnew.
  assert (E : List.filter (same_period tz period (key tx)) done = []).
  { induction done as [|x done IH]; [reflexivity|].
    simpl. unfold same_period at 1.
    destruct (String.eqb_spec (key x) (key tx)) as [Heq|_].
    - exfalso. apply Hnew. rewrite <- Heq. apply Hcov. now left.
    - apply IH. intros tx' Hin. apply Hcov. now right. }
  unfold bucket_ok. simpl. repeat split.
  - rewrite List.filter_app, E. simpl. unfold same_period.
    now rewrite String.eqb_refl.
  - discriminate.
  - lia.
Qed.

Lemma aggregated_ok_step (o : JSObject) (done : list Transaction.t)
    (tx : Transaction.t) :
  aggregated_ok tz period o done ->
  aggregated_ok tz period (aggregate_step tz period o tx)
    (done ++ [tx])%list.
Proof.
  intros [Hnd [Hall Hcov]]. unfold aggregate_step.
  fold (key tx).
  destruct (obj_get o (key tx)) as [b|] eqn:Hget.
  - rewrite Hget.
    destruct (obj_get_split o (key tx) b Hget) as [o1 [o2 [Ho Hset]]].
    rewrite Hset. subst o.
    rewrite map_app in Hnd. simpl in Hnd.
    apply List.NoDup_remove in Hnd as [Hnd Hnotin].
    rewrite List.Forall_app in Hall. destruct Hall as [H1 H2].
    inversion H2 as [|? ? Hb H2']; subst.
    assert (Hother : forall kb, In kb (o1 ++ o2)%list -> fst kb <> key tx).
    { intros kb Hin He. apply Hnotin. rewrite <- He.
      rewrite <- map_app. now apply in_map. }
    split; [|split].
    + rewrite map_app. simpl. apply List.NoDup_Add with (a := key tx)
        (l := (map fst o1 ++ map fst o2)%list);
        [apply List.Add_app | split; assumption].
    + rewrite List.Forall_app. split; [|constructor].
      * rewrite List.Forall_forall in H1 |- *. intros kb Hin.
        apply bucket_ok_other; [now apply H1|].
        intros He. apply (Hother kb); [|now symmetry].
        apply in_or_app. now left.
      * now apply bucket_ok_same.
      * rewrite List.Forall_forall in H2' |- *. intros kb Hin.
        apply bucket_ok_other; [now apply H2'|].
        intros He. apply (Hother kb); [|now symmetry].
        apply in_or_app. now right.
    + intros tx' Hin. rewrite map_app. simpl.
      apply in_app_or in Hin as [Hin | [<- | []]].
      * specialize (Hcov tx' Hin). now rewrite map_app in Hcov.
      * apply in_or_app. right. now left.
  - rewrite obj_get_set.
    rewrite (obj_set_fresh o (key tx) _ Hget).
    rewrite (obj_set_last o (key tx) _ _ Hget).
    pose proof (proj1 (obj_get_None o (key tx)) Hget) as Hnew.
    split; [|split].
    + rewrite map_app. simpl. now apply NoDup_snoc.
    + rewrite List.Forall_app. split; [|constructor; [|constructor]].
      * rewrite List.Forall_forall in Hall |- *. intros kb Hin.
        apply bucket_ok_other; [now apply Hall|].
        intros He. apply Hnew. rewrite He. now apply in_map.
      * now apply (bucket_ok_fresh o).
    + intros tx' Hin. rewrite map_app. simpl.
      apply in_app_or in Hin as [Hin | [<- | []]];
        apply in_or_app; [left; now apply Hcov | right; now left].
Qed.

Lemma aggregated_ok_fold (rest : list Transaction.t) (o : JSObject)
    (done : list Transaction.t) :
  aggregated_ok tz period o done ->
  aggregated_ok tz period (fold_left (aggregate_step tz period) rest o)
    (done ++ rest)%list.
Proof.
  revert o done. induction rest as [|tx rest IH]; intros o done H; simpl.
  - now rewrite app_nil_r.
  - replace (done ++ tx :: rest)%list with ((done ++ [tx]) ++ rest)%list
      by now rewrite <- app_assoc.
    apply IH. now apply aggregated_ok_step.
Qed.

Lemma aggregated_ok_all (transactions : list Transaction.t) :
  aggregated_ok tz period
    (fold_left (aggregate_step tz period) transactions []) transactions.
Proof.
  apply (aggregated_ok_fold transactions [] []).
  repeat split; [constructor | constructor | intros tx []].
Qed.

Lemma insert_bucket_perm (x : Bucket.t) (l : list Bucket.t) :
  Permutation (insert_bucket legacy x l) (x :: l).
Proof.
  induction l as [|y l IH]; simpl; [reflexivity|].
  destruct (compare_buckets legacy y x <=? 0); [|reflexivity].
  rewrite IH. apply perm_swap.
Qed.

Lemma sort_buckets_perm (l : list Bucket.t) :
  Permutation (sort_buckets legacy l) l.
Proof.
  unfold sort_buckets.
  assert (E : forall acc,
             Permutation (fold_left (fun a x => insert_bucket legacy x a) l acc)
               (acc ++ l)%list).
  { induction l as [|x l IH]; intros acc; simpl.
    - now rewrite app_nil_r.
    - rewrite IH, insert_bucket_perm.
      change (x :: acc)%list with ([x] ++ acc)%list.
      rewrite (Permutation_app_comm [x] acc), <- app_assoc. reflexivity. }
  apply (E []).
Qed.

(** Every returned bucket is a bucket of the object, under its date. *)
Lemma aggregateByPeriod_In (transactions : list Transaction.t)
    (b : Bucket.t) :
  In b (aggregateByPeriod tz legacy transactions period)
  <-> In (Bucket.date b, b)
        (fold_left (aggregate_step tz period) transactions []).
Proof.
  unfold aggregateByPeriod.
  destruct (aggregated_ok_all transactions) as [_ [Hall _]].
  rewrite List.Forall_forall in Hall. split.
  - intros Hin.
    apply (Permutation_in _ (sort_buckets_perm _)) in Hin.
    unfold Object_values in Hin. apply in_map_iff in Hin as [[k v] [E Hin]].
    simpl in E. subst v.
    destruct (Hall _ Hin) as [Hd _]. simpl in Hd. now rewrite Hd.
  - intros Hin.
    apply (Permutation_in _ (Permutation_sym (sort_buckets_perm _))).
    unfold Object_values. apply in_map_iff. now exists (Bucket.date b, b).
Qed.

End AggregateProofs.

(** X28.  Every bucket [aggregateByPeriod] returns lists exactly the input
    transactions whose period key is the bucket's date, in the order of
    the input; the list is not empty, [count] is its length and
    [totalAmount] the sum of its amounts. *)
Theorem aggregateByPeriod_bucket (tz : Z) (legacy : string -> option Z)
    (transactions : list Transaction.t) (period : string) (b : Bucket.t) :
  In b (aggregateByPeriod tz legacy transactions period) ->
  Bucket.transactions b
  = List.filter
      (fun tx =>
         String.eqb (period_key tz period (Transaction.createdAt tx))
           (Bucket.date b))
      transactions
  /\ Bucket.transactions b <> []
  /\ Bucket.count b = Z.of_nat (length (Bucket.transactions b))
  /\ Bucket.totalAmount b = sum_amount (Bucket.transactions b).
Proof.
  intros Hin. apply aggregateByPeriod_In in Hin.
  destruct (aggregated_ok_all tz period transactions) as [_ [Hall _]].
  rewrite List.Forall_forall in Hall.
  destruct (Hall _ Hin) as [_ [Ht [Hn [Hc Ha]]]]. simpl in *.
  repeat split; assumption.
Qed.

Lemma aggregateByPeriod_bucket_witness :
  let b := Bucket.mk "2023-11-14" 750 2 [Sample.borrowing; Sample.sale] in
  Bucket.count b = Z.of_nat (length (Bucket.transactions b))
  /\ Bucket.totalAmount b = sum_amount (Bucket.transactions b).
Proof.
  cbv zeta.
  destruct (aggregateByPeriod_bucket 0 (fun _ => None)
              [Sample.borrowing; Sample.sale] "day"
              (Bucket.mk "2023-11-14" 750 2 [Sample.borrowing; Sample.sale]))
    as [_ [_ [H1 H2]]].
  - vm_compute. left. reflexivity.
  - split; assumption.
Defined.

Lemma aggregateByPeriod_distinct_dates_aux (tz : Z)
    (legacy : string -> option Z)
    (transactions : list Transaction.t) (period : string) :
  List.NoDup (map Bucket.date (aggregateByPeriod tz legacy transactions period)).
Proof.
  unfold aggregateByPeriod.
  apply (Permutation_NoDup
           (Permutation_map Bucket.date
              (Permutation_sym (sort_buckets_perm _ _)))).
  destruct (aggregated_ok_all tz period transactions) as [Hnd [Hall _]].
  assert (E : map Bucket.date
                (Object_values
                   (fold_left (aggregate_step tz period) transactions []))
              = map fst
                  (fold_left (aggregate_step tz period) transactions [])).
  { unfold Object_values. rewrite map_map.
    apply map_ext_in. intros kb Hin.
    rewrite List.Forall_forall in Hall.
    now destruct (Hall kb Hin) as [Hd _]. }
  now rewrite E.
Qed.

Lemma NoDup_map_inj {A B : Type} (f : A -> B) (l : list A) (x y : A) :
  List.NoDup (map f l) -> In x l -> In y l -> f x = f y -> x = y.
Proof.
  induction l as [|z l IH]; simpl; [tauto|].
  intros Hnd Hx Hy Hf. inversion Hnd as [|? ? Hz Hl]; subst.
  destruct Hx as [<- | Hx], Hy as [<- | Hy]; try reflexivity.
  - exfalso. apply Hz. rewrite Hf. now apply in_map.
  - exfalso. apply Hz. rewrite <- Hf. now apply in_map.
  - now apply IH.
Qed.

(** X29.  The buckets partition the input by period: no two buckets
    have the same date, and every input transaction is listed in one bucket
    and one only, the bucket whose date is the period key of the
    transaction. *)
Theorem aggregateByPeriod_covers (tz : Z) (legacy : string -> option Z)
    (transactions : list Transaction.t) (period : string)
    (tx : Transaction.t) :
  In tx transactions ->
  List.NoDup (map Bucket.date (aggregateByPeriod tz legacy transactions period))
  /\ exists b,
       In b (aggregateByPeriod tz legacy transactions period)
       /\ Bucket.date b = period_key tz period (Transaction.createdAt tx)
       /\ In tx (Bucket.transactions b)
       /\ forall b',
            In b' (aggregateByPeriod tz legacy transactions period) ->
            In tx (Bucket.transactions b') -> b' = b.
Proof.
  intros Hin. split; [apply aggregateByPeriod_distinct_dates_aux|].
  destruct (aggregated_ok_all tz period transactions) as [_ [Hall Hcov]].
  rewrite List.Forall_forall in Hall.
  specialize (Hcov tx Hin). apply in_map_iff in Hcov as [[k b] [Hk Hkb]].
  simpl in Hk. subst k.
  destruct (Hall _ Hkb) as [Hd [Ht _]]. simpl in Hd, Ht.
  assert (Hb : In b (aggregateByPeriod tz legacy transactions period)).
  { apply aggregateByPeriod_In. now rewrite Hd. }
  exists b. split; [assumption|]. split; [assumption|]. split.
  - rewrite Ht. apply List.filter_In. split; [assumption|].
    unfold same_period. apply String.eqb_refl.
  - intros b' Hb' Htx'.
    apply (NoDup_map_inj Bucket.date
             (aggregateByPeriod tz legacy transactions period));
      [apply aggregateByPeriod_distinct_dates_aux | assumption | assumption |].
    apply aggregateByPeriod_In in Hb'.
    destruct (Hall _ Hb') as [_ [Ht' _]]. simpl in Ht'.
    rewrite Ht' in Htx'. apply List.filter_In in Htx' as [_ He].
    unfold same_period in He. apply String.eqb_eq in He.
    unfold key_of in *. congruence.
Qed.

Lemma aggregateByPeriod_covers_witness :
  exists b,
    In b (aggregateByPeriod 0 (fun _ => None)
            [Sample.borrowing; Sample.sale] "day")
    /\ In Sample.sale (Bucket.transactions b).
Proof.
  destruct (aggregateByPeriod_covers 0 (fun _ => None)
              [Sample.borrowing; Sample.sale] "day" Sample.sale) as [_ [b [H1 [_ [H2 _]]]]].
  - simpl. auto.
  - exists b. split; assumption.
Defined.

Section Chronological.

Variable tz : Z.
Variable legacy : string -> option Z.

(** The comparator on two dates that both parse. *)
Lemma compare_buckets_le (a b : Bucket.t) :
  compare_buckets legacy a b <= 0
  <-> forall t t',
        JSDate.parse legacy (Bucket.date a) = Some t ->
        JSDate.parse legacy (Bucket.date b) = Some t' -> t <= t'.
Proof.
  unfold compare_buckets.
  destruct (JSDate.parse legacy (Bucket.date a)) as [x|],
           (JSDate.parse legacy (Bucket.date b)) as [y|].
  - split.
    + intros H t t' Ht Ht'. injection Ht as <-. injection Ht' as <-. lia.
    + intros H. specialize (H x y eq_refl eq_refl). lia.
  - split; [intros _ t t' _ Ht'; discriminate | lia].
  - split; [intros _ t t' Ht _; discriminate | lia].
  - split; [intros _ t t' Ht _; discriminate | lia].
Qed.

Lemma compare_buckets_gt (a b : Bucket.t) :
  0 < compare_buckets legacy a b ->
  exists t t',
    JSDate.parse legacy (Bucket.date a) = Some t
    /\ JSDate.parse legacy (Bucket.date b) = Some t' /\ t' < t.
Proof.
  unfold compare_buckets.
  destruct (JSDate.parse legacy (Bucket.date a)) as [x|],
           (JSDate.parse legacy (Bucket.date b)) as [y|]; try lia.
  intros H. exists x, y. repeat split. lia.
Qed.

(** Insertion keeps valid dates in order. *)
Lemma insert_bucket_chronological (x : Bucket.t) (l : list Bucket.t) :
  is_Some (JSDate.parse legacy (Bucket.date x)) ->
  List.Forall (fun b => is_Some (JSDate.parse legacy (Bucket.date b))) l ->
  chronological legacy l -> chronological legacy (insert_bucket legacy x l).
Proof.
  intros [tx Ex]. induction l as [|y l IH]; simpl.
  - intros _ _. split; [constructor | exact I].
  - intros Hall [Hy Hl].
    apply List.Forall_cons_iff in Hall as [[ty Ey] Hall].
    destruct (Z.leb_spec (compare_buckets legacy y x) 0) as [Hle|Hgt]; simpl.
    + split; [|now apply IH].
      apply (Permutation_Forall
               (Permutation_sym (insert_bucket_perm legacy x l))).
      now constructor.
    + apply compare_buckets_gt in Hgt as [ty' [tx' [Ey' [Ex' Hlt]]]].
      rewrite Ey in Ey'. rewrite Ex in Ex'.
      injection Ey' as <-. injection Ex' as <-.
      split; [|split; assumption].
      constructor.
      * apply compare_buckets_le. intros t t' Ht Ht'.
        rewrite Ex in Ht. rewrite Ey in Ht'.
        injection Ht as <-. injection Ht' as <-. lia.
      * rewrite List.Forall_forall in Hy, Hall |- *. intros b Hb.
        specialize (Hy b Hb).
        apply compare_buckets_le. intros t t' Ht Ht'.
        rewrite Ex in Ht. injection Ht as <-.
        pose proof (proj1 (compare_buckets_le y b) Hy ty t' Ey Ht'). lia.
Qed.

Lemma sort_buckets_chronological (l : list Bucket.t) :
  List.Forall (fun b => is_Some (JSDate.parse legacy (Bucket.date b))) l ->
  chronological legacy (sort_buckets legacy l).
Proof.
  unfold sort_buckets. intros Hl.
  assert (E : forall acc,
             List.Forall
               (fun b => is_Some (JSDate.parse legacy (Bucket.date b))) acc ->
             chronological legacy acc ->
             chronological legacy
               (fold_left (fun a x => insert_bucket legacy x a) l acc)).
  { induction l as [|x l IH]; intros acc Hacc Hc; simpl; [assumption|].
    apply List.Forall_cons_iff in Hl as [Hx Hl].
    apply IH; [assumption | |now apply insert_bucket_chronological].
    apply (Permutation_Forall
             (Permutation_sym (insert_bucket_perm legacy x acc))).
    now constructor. }
  apply E; [constructor | exact I].
Qed.

Lemma chronological_lookup (bs : list Bucket.t) (i j : nat)
    (b b' : Bucket.t) :
  chronological legacy bs -> (i < j)%nat ->
  bs !! i = Some b -> bs !! j = Some b' ->
  compare_buckets legacy b b' <= 0.
Proof.
  revert i j. induction bs as [|x bs IH]; intros i j Hc Hij Hi Hj.
  - discriminate.
  - destruct Hc as [Hx Hc]. destruct j as [|j]; [lia|].
    destruct i as [|i].
    + injection Hi as <-. rewrite List.Forall_forall in Hx.
      apply Hx. change ((x :: bs) !! S j) with (bs !! j) in Hj.
      apply list_elem_of_In. now apply (list_elem_of_lookup_2 bs j).
    + apply (IH i j); [assumption | lia | exact Hi | exact Hj].
Qed.

(** The date of a bucket of the object is the period key of one of the
    transactions. *)
Lemma aggregated_date_is_key (period : string)
    (transactions : list Transaction.t) (kb : string * Bucket.t) :
  In kb (fold_left (aggregate_step tz period) transactions []) ->
  exists tx,
    In tx transactions
    /\ Bucket.date (snd kb)
       = period_key tz period (Transaction.createdAt tx).
Proof.
  intros Hin.
  destruct (aggregated_ok_all tz period transactions) as [_ [Hall _]].
  rewrite List.Forall_forall in Hall.
  destruct (Hall _ Hin) as [Hd [Ht [Hn _]]].
  destruct (Bucket.transactions (snd kb)) as [|tx rest] eqn:E;
    [now contradiction Hn|].
  assert (Hf : In tx (List.filter (same_period tz period (fst kb))
                        transactions)).
  { rewrite <- Ht. now left. }
  apply List.filter_In in Hf as [Htx Hk].
  unfold same_period, key_of in Hk. apply String.eqb_eq in Hk.
  exists tx. split; [assumption|]. now rewrite Hd, Hk.
Qed.

End Chronological.

(** X30.  The buckets come out in date order.  When the period key of
    every input transaction is a date [new Date] reads, every returned
    bucket has a valid date, and of two returned buckets the one that
    stands first never has the later date. *)
Theorem aggregateByPeriod_chronological (tz : Z)
    (legacy : string -> option Z)
    (transactions : list Transaction.t) (period : string) (i j : nat)
    (b b' : Bucket.t) :
  dates_parse tz legacy period transactions ->
  (i < j)%nat ->
  aggregateByPeriod tz legacy transactions period !! i = Some b ->
  aggregateByPeriod tz legacy transactions period !! j = Some b' ->
  exists t t',
    JSDate.parse legacy (Bucket.date b) = Some t
    /\ JSDate.parse legacy (Bucket.date b') = Some t'
    /\ t <= t'.
Proof.
  intros Hparse Hij Hi Hj.
  assert (Hall : List.Forall
                   (fun b => is_Some (JSDate.parse legacy (Bucket.date b)))
                   (Object_values
                      (fold_left (aggregate_step tz period) transactions
                         []))).
  { unfold Object_values. rewrite List.Forall_forall. intros x Hx.
    apply in_map_iff in Hx as [kb [<- Hkb]].
    apply aggregated_date_is_key in Hkb as [tx [Htx ->]].
    now apply Hparse. }
  assert (Hsome : forall k x,
             aggregateByPeriod tz legacy transactions period !! k = Some x ->
             is_Some (JSDate.parse legacy (Bucket.date x))).
  { intros k x Hk. rewrite List.Forall_forall in Hall. apply Hall.
    apply (Permutation_in _ (sort_buckets_perm legacy _)).
    apply list_elem_of_In. now apply (list_elem_of_lookup_2 _ k). }
  destruct (Hsome i b Hi) as [t Ht], (Hsome j b' Hj) as [t' Ht'].
  exists t, t'. split; [assumption|]. split; [assumption|].
  assert (Hc : compare_buckets legacy b b' <= 0).
  { apply (chronological_lookup legacy
             (aggregateByPeriod tz legacy transactions period) i j);
      try assumption.
    now apply sort_buckets_chronological. }
  exact (proj1 (compare_buckets_le legacy b b') Hc t t' Ht Ht').
Qed.

Lemma aggregateByPeriod_chronological_witness :
  exists t t',
    JSDate.parse (fun _ => None) "2020-09-13" = Some t
    /\ JSDate.parse (fun _ => None) "2023-11-14" = Some t'
    /\ t <= t'.
Proof.
  apply (aggregateByPeriod_chronological 0 (fun _ => None)
           [Sample.sale; Sample.purchase] "day" 0 1
           (Bucket.mk "2020-09-13" 5 1 [Sample.purchase])
           (Bucket.mk "2023-11-14" 250 1 [Sample.sale])).
  - intros tx [<- | [<- | []]]; vm_compute; eauto.
  - lia.
  - vm_compute. reflexivity.
  - vm_compute. reflexivity.
Defined.
